(** * Fractional-pixel spectral extraction from an IFU cube

    A shallow embedding of the notebook
    [concept_APIs/fractional_pixel_extraction/fractional_pixel_extraction.ipynb]:
    the conversion of the selected pixel region to a sky region, the loop
    over the spectral slices that sums the flux inside an aperture whose
    radius grows linearly with wavelength, and the assembly of the extracted
    spectrum.

    The notebook's own code is embedded statement by statement.  What it
    delegates to numpy, astropy, regions, photutils and specutils is an
    interface (a class of operations): every theorem of the generic part
    holds for whatever those libraries compute. *)

From Stdlib Require Import String List ZArith Bool Lia.
From Stdlib Require PrimFloat Uint63 Floats.
Import ListNotations.

Set Implicit Arguments.

(** ** Exceptions and results *)

(** The Python exceptions the embedded statements raise themselves, and
    [LibraryError] for any other exception that comes out of a library. *)
Inductive exn : Type :=
| FileNotFoundError
| OSError
| ValueError
| KeyError (key : string)
| IndexError
| IORegistryError
| LibraryError (msg : string).

(** A statement either yields a value or raises. *)
Inductive result (A : Type) : Type :=
| Ok (a : A)
| Raise (e : exn).

Arguments Ok {A} a.
Arguments Raise {A} e.

Definition bind {A B : Type} (m : result A) (k : A -> result B) : result B :=
  match m with
  | Ok a => k a
  | Raise e => Raise e
  end.

Notation "x <- m ;; k" := (bind m (fun x => k))
  (at level 61, m at next level, right associativity).

Notation "m ;; k" := (bind m (fun _ => k))
  (at level 61, right associativity).

(** [l[i]] for a non-negative literal index: [IndexError] out of range. *)
Definition getitem {A : Type} (l : list A) (i : nat) : result A :=
  match nth_error l i with
  | Some a => Ok a
  | None => Raise IndexError
  end.

(** [t[name]] on a table or an HDU list: the first entry of that name,
    [KeyError] when there is none. *)
Fixpoint getitem_name {A : Type} (t : list (string * A)) (name : string) : result A :=
  match t with
  | [] => Raise (KeyError name)
  | (k, a) :: t' => if String.eqb k name then Ok a else getitem_name t' name
  end.

(** Python's [zip] of three iterables: it stops with the shortest. *)
Fixpoint zip3 {A B C : Type} (a : list A) (b : list B) (c : list C) : list (A * B * C) :=
  match a, b, c with
  | x :: a', y :: b', z :: c' => (x, y, z) :: zip3 a' b' c'
  | _, _, _ => []
  end.

(** A [for] loop whose body updates the loop's state or raises. *)
Fixpoint for_loop {S X : Type} (body : S -> X -> result S) (xs : list X) (st : S) : result S :=
  match xs with
  | [] => Ok st
  | x :: xs' => st' <- body st x ;; for_loop body xs' st'
  end.

(** Running a fallible function over a list, left to right. *)
Fixpoint mapM {X Y : Type} (f : X -> result Y) (xs : list X) : result (list Y) :=
  match xs with
  | [] => Ok []
  | x :: xs' => y <- f x ;; ys <- mapM f xs' ;; Ok (y :: ys)
  end.

(** ** Interfaces of the delegated libraries *)

(** Scalar arithmetic of numpy's float64: [*], [/], [np.sqrt], [np.abs] and
    the conversion of an integer literal. *)
Class Number (F : Type) : Type := {
  fmul : F -> F -> F;
  fdiv : F -> F -> F;
  fsqrt : F -> F;
  fabs : F -> F;
  of_int : Z -> F
}.

(** astropy's units: products and quotients of units, and [u.arcsec]. *)
Class UnitAlgebra (U : Type) : Type := {
  umul : U -> U -> U;
  udiv : U -> U -> U;
  arcsec : U
}.

(** An astropy [Quantity]: a value (a scalar or an array) and its unit. *)
Record Quantity (A U : Type) : Type := {
  value : A;
  unit : U
}.

(** [x * unit]: a bare value times a unit is the quantity of that unit. *)
Definition times_unit {A U : Type} (a : A) (u : U) : Quantity A U :=
  {| value := a; unit := u |}.

(** Iterating over (or indexing) an array quantity yields scalar quantities
    of the array's unit. *)
Definition iter_quantity {A U : Type} (q : Quantity (list A) U) : list (Quantity A U) :=
  map (fun v => {| value := v; unit := unit q |}) (value q).

(** [astropy.wcs]: the WCS of a header, its celestial part, the scales
    [wcs.cdelt] and [pixel_to_world]. *)
Class WCSLibrary (F SkyCoord Header WCS : Type) : Type := {
  WCS_of_header : Header -> WCS;
  celestial : WCS -> WCS;
  cdelt : WCS -> list F;
  pixel_to_world : WCS -> F -> F -> SkyCoord
}.

(** The [method] argument of [photutils.aperture_photometry]. *)
Inductive Method : Type :=
| exact
| center_of_pixel
| subpixel.

(** The kinds of [astropy.nddata] uncertainties. *)
Inductive UncertaintyType : Type :=
| std
| var
| ivar.

Record NDUncertainty (D : Type) : Type := {
  uncertainty_type : UncertaintyType;
  array : D
}.

Definition StdDevUncertainty {D : Type} (a : D) : NDUncertainty D :=
  {| uncertainty_type := std; array := a |}.

(** A two-dimensional image, and a table of named columns. *)
Definition Image (F : Type) : Type := list (list F).

Definition Table (F : Type) : Type := list (string * list F).

Section Notebook.

Context {F : Type} {numF : Number F}.
Context {U : Type} {unitU : UnitAlgebra U}.
Context {SkyCoord Header WCS : Type} {wcsL : WCSLibrary F SkyCoord Header WCS}.

(** *** numpy *)

(** [np.prod] of a one-dimensional array: the running product from the
    first element on, and 1 for the empty array. *)
Definition np_prod (a : list F) : F :=
  match a with
  | [] => of_int 1
  | x :: xs => fold_left fmul xs x
  end.

(** *** Quantities *)

Definition qmul (a b : Quantity F U) : Quantity F U :=
  {| value := fmul (value a) (value b); unit := umul (unit a) (unit b) |}.

Definition qdiv (a b : Quantity F U) : Quantity F U :=
  {| value := fdiv (value a) (value b); unit := udiv (unit a) (unit b) |}.

(** *** Regions and apertures *)

Record PixCoord : Type := {
  x : F;
  y : F
}.

Record CirclePixelRegion : Type := {
  pix_center : PixCoord;
  pix_radius : F
}.

Record CircleSkyRegion : Type := {
  center : SkyCoord;
  radius : Quantity F U
}.

Record SkyCircularAperture : Type := {
  positions : SkyCoord;
  r : Quantity F U
}.

(** One call of [aperture_photometry]: data, aperture, [wcs], [method], [error]. *)
Record PhotCall : Type := {
  call_data : Image F;
  call_aperture : SkyCircularAperture;
  call_wcs : WCS;
  call_method : Method;
  call_error : option (Image F)
}.

(** [photutils.aperture_photometry]: a table with the columns
    [aperture_sum] and [aperture_sum_err], or an exception. *)
Context (aperture_photometry : PhotCall -> result (Table F)).

(** *** Cell 5: from the selected pixel region to a sky aperture *)

(** [pixel_scale = np.sqrt(np.abs(np.prod(w.celestial.wcs.cdelt)))] *)
Definition pixel_scale (w : WCS) : F :=
  fsqrt (fabs (np_prod (cdelt (celestial w)))).

(** [center], [radius] and [region = CircleSkyRegion(center, radius)] *)
Definition sky_region (w : WCS) (pix_region : CirclePixelRegion) : CircleSkyRegion :=
  let center := pixel_to_world (celestial w) (x (pix_center pix_region)) (y (pix_center pix_region)) in
  let radius := times_unit (fmul (fmul (pix_radius pix_region) (pixel_scale w)) (of_int 3600)) arcsec in
  {| center := center; radius := radius |}.

(** [aperture = SkyCircularAperture(region.center, region.radius)] *)
Definition sky_aperture (region : CircleSkyRegion) : SkyCircularAperture :=
  {| positions := center region; r := radius region |}.

(** *** Cells 7 and 8: the extraction *)

Record Spectrum1D (D : Type) : Type := {
  flux : Quantity D U;
  spectral_axis : Quantity (list F) U;
  uncertainty : option (NDUncertainty D)
}.

(** The two lists the loop appends to, and a ghost log of the calls of
    [aperture_photometry] it has made. *)
Record LoopState : Type := {
  flux_sum : list F;
  err_sum : list F;
  calls : list PhotCall
}.

Definition loop_init : LoopState :=
  {| flux_sum := []; err_sum := []; calls := [] |}.

(** The body of [for wavelength, sci_slice, err_slice in zip(...)]. *)
Definition loop_body (region : CircleSkyRegion) (aperture : SkyCircularAperture) (w : WCS)
    (reference_wavelength : Quantity F U) (st : LoopState)
    (item : Quantity F U * Image F * Image F) : result LoopState :=
  let '(wavelength, sci_slice, err_slice) := item in
  let aperture_radius := qdiv (qmul (r aperture) wavelength) reference_wavelength in
  let aperture_cone := {| positions := center region; r := aperture_radius |} in
  let call := {| call_data := sci_slice; call_aperture := aperture_cone;
                 call_wcs := celestial w; call_method := exact;
                 call_error := Some err_slice |} in
  phot_table <- aperture_photometry call ;;
  aperture_sum <- getitem_name phot_table "aperture_sum" ;;
  f <- getitem aperture_sum 0 ;;
  aperture_sum_err <- getitem_name phot_table "aperture_sum_err" ;;
  e <- getitem aperture_sum_err 0 ;;
  Ok {| flux_sum := flux_sum st ++ [f];
        err_sum := err_sum st ++ [e];
        calls := calls st ++ [call] |}.

(** From [flux_sum = []] to the end of the loop. *)
Definition extraction_loop (region : CircleSkyRegion) (aperture : SkyCircularAperture) (w : WCS)
    (spec1d : Spectrum1D (list (Image F))) (sci err : list (Image F)) : result LoopState :=
  reference_wavelength <- getitem (iter_quantity (spectral_axis spec1d)) 0 ;;
  for_loop (loop_body region aperture w reference_wavelength)
           (zip3 (iter_quantity (spectral_axis spec1d)) sci err) loop_init.

(** Modelled from the spec: the constructor
    [Spectrum1D(flux=..., spectral_axis=..., uncertainty=...)] belongs to
    specutils, not to this repository; the spec has the array lengths along
    the spectral axis match across the flux, error and wavelength arrays,
    enforced by the library's types.  The constructor raises [ValueError]
    when they do not, and otherwise keeps the three arrays as they are. *)
Definition Spectrum1D_init (flux_q spectral_axis_q : Quantity (list F) U)
    (uncertainty_q : NDUncertainty (list F)) : result (Spectrum1D (list F)) :=
  if (length (value flux_q) =? length (value spectral_axis_q))%nat
     && (length (array uncertainty_q) =? length (value flux_q))%nat
  then Ok {| flux := flux_q; spectral_axis := spectral_axis_q;
             uncertainty := Some uncertainty_q |}
  else Raise ValueError.

(** [flux], [uncertainty] and [extracted_spec]. *)
Definition extract (region : CircleSkyRegion) (aperture : SkyCircularAperture) (w : WCS)
    (spec1d : Spectrum1D (list (Image F))) (sci err : list (Image F)) : result (Spectrum1D (list F)) :=
  st <- extraction_loop region aperture w spec1d sci err ;;
  let flux_q := times_unit (flux_sum st) (unit (flux spec1d)) in
  let uncertainty_q := StdDevUncertainty (err_sum st) in
  Spectrum1D_init flux_q (spectral_axis spec1d) uncertainty_q.

(** *** The notebook as a script, from the selection cell on *)

(** One HDU of the FITS file, and the file's HDUs by name in file order.
    [hdulist[name]] is a lookup by name, [hdulist[1]] a lookup by position. *)
Record HDU : Type := {
  header : Header;
  data : list (Image F)
}.

Definition HDUList : Type := list (string * HDU).

(** The calls of cells 5 and 6 into astropy, regions, photutils and
    matplotlib whose code is not in this repository.  The values they
    return are those of [WCS_of_header], [pixel_to_world], [sky_region] and
    [sky_aperture]; whether they raise instead, and what, is theirs to
    decide.  The last one stands for the whole of cell 6, which converts the
    region back with [region.to_pixel(w.celestial)] and plots it over the
    mean of [sci]. *)
Inductive LibraryCall : Type :=
| WCS_call (h : Header)
| pixel_to_world_call (w : WCS) (px py : F)
| CircleSkyRegion_call (center : SkyCoord) (radius : Quantity F U)
| SkyCircularAperture_call (positions : SkyCoord) (r : Quantity F U)
| plot_call (region : CircleSkyRegion) (w : WCS) (sci : list (Image F)).

(** The exception a call ends with, if any. *)
Class Libraries : Type :=
  raises : LibraryCall -> option exn.

Context {libraries : Libraries}.

Definition call (c : LibraryCall) : result Datatypes.unit :=
  match raises c with
  | Some e => Raise e
  | None => Ok tt
  end.

Context {RawFile : Type}.

(** What astropy and specutils make of the bytes of a file: [None] when the
    bytes are not a FITS cube they can read. *)
Context (decode_hdulist : RawFile -> option HDUList).
Context (decode_spectrum : RawFile -> option (Spectrum1D (list (Image F)))).

(** What the script finds when it runs: the file stored under [filename]
    (if any) and the circular region the user has selected in the viewer
    (if any). *)
Record Env : Type := {
  stored : option RawFile;
  selected : option CirclePixelRegion
}.

(** Modelled from the spec: [get_selection_definition] belongs to glue, not
    to this repository; the spec gives one error for it, "the user did not
    select a region". *)
Definition get_selection_definition (env : Env) : result CirclePixelRegion :=
  match selected env with
  | Some pix_region => Ok pix_region
  | None => Raise ValueError
  end.

(** Modelled from the spec: [fits.open] belongs to astropy, not to this
    repository; the spec gives one error for it, "the input file is missing
    or malformed". *)
Definition fits_open (env : Env) : result HDUList :=
  match stored env with
  | None => Raise FileNotFoundError
  | Some raw =>
      match decode_hdulist raw with
      | Some hdulist => Ok hdulist
      | None => Raise OSError
      end
  end.

(** Modelled from the spec: [Spectrum1D.read] belongs to specutils, not to
    this repository; the spec gives one error for it, "the input file is
    missing or malformed".  A file that no reader of the registry accepts
    is an [IORegistryError]. *)
Definition Spectrum1D_read (env : Env) : result (Spectrum1D (list (Image F))) :=
  match stored env with
  | None => Raise FileNotFoundError
  | Some raw =>
      match decode_spectrum raw with
      | Some spec1d => Ok spec1d
      | None => Raise IORegistryError
      end
  end.

(** Cells 4 to 8 in order, from [pix_region = ...] to [extracted_spec];
    an exception ends the run.  The run starts where cells 2 and 3 have left
    the file and the viewer, which is what [Env] records; the plot of cell 6
    produces no value that the extraction reads, but it can end the run. *)
Definition notebook (env : Env) : result (Spectrum1D (list F)) :=
  pix_region <- get_selection_definition env ;;
  hdulist <- fits_open env ;;
  sci_hdu <- getitem_name hdulist "SCI" ;;
  let sci := data sci_hdu in
  err_hdu <- getitem_name hdulist "ERR" ;;
  let err := data err_hdu in
  hdu1 <- getitem hdulist 1 ;;
  call (WCS_call (header (snd hdu1))) ;;
  let w := WCS_of_header (header (snd hdu1)) in
  call (pixel_to_world_call (celestial w)
          (x (pix_center pix_region)) (y (pix_center pix_region))) ;;
  let region := sky_region w pix_region in
  call (CircleSkyRegion_call (center region) (radius region)) ;;
  call (SkyCircularAperture_call (center region) (radius region)) ;;
  let aperture := sky_aperture region in
  call (plot_call region w sci) ;;
  spec1d <- Spectrum1D_read env ;;
  extract region aperture w spec1d sci err.

(** The input errors the spec names: no region selected, the file missing,
    or the file malformed for one of its two readers. *)
Definition input_error (env : Env) : Prop :=
  selected env = None \/
  stored env = None \/
  exists raw, stored env = Some raw /\
    (decode_hdulist raw = None \/ decode_spectrum raw = None).

(** *** The extraction, slice by slice

    The statements' side: what the spec says the loop computes for one
    slice, written without the loop and its accumulators. *)

(** The call of [aperture_photometry] for one slice: the slice's science
    image, the aperture at the region's centre with the radius scaled by
    [wavelength / reference_wavelength], the celestial WCS, the exact
    method and the slice's error image. *)
Definition slice_call (region : CircleSkyRegion) (aperture : SkyCircularAperture) (w : WCS)
    (reference_wavelength : Quantity F U)
    (item : Quantity F U * Image F * Image F) : PhotCall :=
  let '(wavelength, sci_slice, err_slice) := item in
  {| call_data := sci_slice;
     call_aperture := {| positions := center region;
                         r := qdiv (qmul (r aperture) wavelength) reference_wavelength |};
     call_wcs := celestial w;
     call_method := exact;
     call_error := Some err_slice |}.

(** The first row of a named column. *)
Definition first_row (t : Table F) (column : string) : result F :=
  c <- getitem_name t column ;; getitem c 0.

(** The photometric sum of one slice and its propagated error. *)
Definition slice_photometry (region : CircleSkyRegion) (aperture : SkyCircularAperture) (w : WCS)
    (reference_wavelength : Quantity F U)
    (item : Quantity F U * Image F * Image F) : result (F * F) :=
  phot_table <- aperture_photometry (slice_call region aperture w reference_wavelength item) ;;
  f <- first_row phot_table "aperture_sum" ;;
  e <- first_row phot_table "aperture_sum_err" ;;
  Ok (f, e).

(** The number of slices the loop visits. *)
Definition n_slices (spec1d : Spectrum1D (list (Image F))) (sci err : list (Image F)) : nat :=
  Nat.min (length (value (spectral_axis spec1d))) (Nat.min (length sci) (length err)).

End Notebook.

(** ** The arithmetic of the notebook *)

(** IEEE 754 binary64, the arithmetic of numpy's float64. *)
Definition float_of_int (z : Z) : PrimFloat.float :=
  match z with
  | Z0 => PrimFloat.zero
  | Zpos _ => PrimFloat.of_uint63 (Uint63.of_Z z)
  | Zneg p => PrimFloat.opp (PrimFloat.of_uint63 (Uint63.of_Z (Zpos p)))
  end.

#[export] Instance float64 : Number PrimFloat.float := {|
  fmul := PrimFloat.mul;
  fdiv := PrimFloat.div;
  fsqrt := PrimFloat.sqrt;
  fabs := PrimFloat.abs;
  of_int := float_of_int
|}.

(** The IEEE values that are not below zero: everything but the negative
    numbers and minus infinity (so the zeros of both signs, and NaN). *)
Definition SF_not_negative (s : SpecFloat.spec_float) : Prop :=
  match s with
  | SpecFloat.S754_infinity true | SpecFloat.S754_finite true _ _ => False
  | _ => True
  end.

(** The IEEE numbers at or above zero: the zeros, the positive numbers
    and plus infinity; and those of them that are finite. *)
Definition SF_at_least_zero (s : SpecFloat.spec_float) : Prop :=
  match s with
  | SpecFloat.S754_zero _ | SpecFloat.S754_finite false _ _
  | SpecFloat.S754_infinity false => True
  | _ => False
  end.

Definition SF_finite_at_least_zero (s : SpecFloat.spec_float) : Prop :=
  match s with
  | SpecFloat.S754_zero _ | SpecFloat.S754_finite false _ _ => True
  | _ => False
  end.

(** ** A small concrete setting

    Stand-ins for the delegated libraries, on which the embedded code can be
    run: units as exponents of (angle, length, flux density), a linear WCS,
    and a photometry that sums the whole image. *)
Module Demo.

Import PrimFloat.

Definition Unit : Type := (Z * Z * Z)%type.

Definition unit_mul (a b : Unit) : Unit :=
  let '(a1, a2, a3) := a in
  let '(b1, b2, b3) := b in
  (a1 + b1, a2 + b2, a3 + b3)%Z.

Definition unit_div (a b : Unit) : Unit :=
  let '(a1, a2, a3) := a in
  let '(b1, b2, b3) := b in
  (a1 - b1, a2 - b2, a3 - b3)%Z.

Definition um : Unit := (0, 1, 0)%Z.

Definition MJy_sr : Unit := (0, 0, 1)%Z.

#[export] Instance units : UnitAlgebra Unit := {|
  umul := unit_mul;
  udiv := unit_div;
  arcsec := (1, 0, 0)%Z
|}.

Record LinearWCS (F : Type) : Type := {
  crpix : F * F;
  crval : F * F;
  scales : list F
}.

#[export] Instance float_wcs : WCSLibrary float (float * float) (LinearWCS float) (LinearWCS float) := {|
  WCS_of_header := fun h => h;
  celestial := fun w => w;
  cdelt := fun w => scales w;
  pixel_to_world := fun w px py =>
    (fst (crval w) + (px - fst (crpix w)) * nth 0 (scales w) one,
     snd (crval w) + (py - snd (crpix w)) * nth 1 (scales w) one)%float
|}.

(** Libraries that, like regions and photutils, accept a circle only with
    a radius above zero, and raise nothing else. *)
#[export] Instance strict_radius
    : Libraries (F := float) (U := Unit) (SkyCoord := float * float)
                (Header := LinearWCS float) (WCS := LinearWCS float) :=
  fun c =>
    match c with
    | CircleSkyRegion_call _ radius | SkyCircularAperture_call _ radius =>
        if (0 <? value radius)%float then None else Some ValueError
    | _ => None
    end.

Definition total (img : Image float) : float :=
  fold_left add (concat img) zero.

Definition total_err (img : Image float) : float :=
  sqrt (fold_left add (map (fun v => v * v)%float (concat img)) zero).

(** Sums every pixel, whatever the aperture. *)
Definition whole_image_photometry (call : PhotCall (F := float) (U := Unit) (SkyCoord := float * float) (WCS := LinearWCS float))
    : result (Table float) :=
  match call_error call with
  | Some e => Ok [("aperture_sum"%string, [total (call_data call)]);
                  ("aperture_sum_err"%string, [total_err e])]
  | None => Ok [("aperture_sum"%string, [total (call_data call)])]
  end.

Definition w : LinearWCS float :=
  {| crpix := (1, 1)%float; crval := (10, 20)%float;
     scales := [(-0.5)%float; 0.5%float] |}.

Definition pix_region : CirclePixelRegion (F := float) :=
  {| pix_center := {| x := 2%float; y := 3%float |}; pix_radius := 2%float |}.

Definition region : CircleSkyRegion := sky_region w pix_region.

Definition aperture : SkyCircularAperture := sky_aperture region.

Definition plane (v : float) : Image float := [[v; v]; [v; v]].

(** A cube of three slices at 1, 1.5 and 2 micron. *)
Definition spec1d : Spectrum1D (list (Image float)) :=
  {| flux := {| value := [plane 1; plane 2; plane 3]; unit := MJy_sr |};
     spectral_axis := {| value := [1; 1.5; 2]%float; unit := um |};
     uncertainty := None |}.

Definition sci : list (Image float) := [plane 1; plane 2; plane 3]%float.

Definition err : list (Image float) := [plane 0.5; plane 0.5; plane 0.5]%float.

(** Stacks shorter than the spectral axis. *)
Definition short_sci : list (Image float) := [plane 1; plane 2]%float.

Definition short_err : list (Image float) := [plane 0.5]%float.

Definition hdulist : HDUList (F := float) (Header := LinearWCS float) :=
  [("PRIMARY"%string, {| header := w; data := [] |});
   ("SCI"%string, {| header := w; data := sci |});
   ("ERR"%string, {| header := w; data := err |})].

(** The same file with an ERR extension of a single plane. *)
Definition hdulist_short_err : HDUList (F := float) (Header := LinearWCS float) :=
  [("PRIMARY"%string, {| header := w; data := [] |});
   ("SCI"%string, {| header := w; data := sci |});
   ("ERR"%string, {| header := w; data := short_err |})].

(** Files are named by a number; file 1 holds the cube, file 2 the cube
    with the short ERR extension. *)
Definition decode_hdulist (raw : nat) : option (HDUList (F := float) (Header := LinearWCS float)) :=
  match raw with
  | 1%nat => Some hdulist
  | 2%nat => Some hdulist_short_err
  | _ => None
  end.

Definition decode_spectrum (raw : nat) : option (Spectrum1D (F := float) (U := Unit) (list (Image float))) :=
  match raw with
  | 1%nat | 2%nat => Some spec1d
  | _ => None
  end.

Definition env : Env (F := float) (RawFile := nat) :=
  {| stored := Some 1%nat; selected := Some pix_region |}.

Definition env_short_err : Env (F := float) (RawFile := nat) :=
  {| stored := Some 2%nat; selected := Some pix_region |}.

(** The same selection with no file, with an unreadable file, and the file
    with no selection. *)
Definition env_no_file : Env (F := float) (RawFile := nat) :=
  {| stored := None; selected := Some pix_region |}.

Definition env_bad_file : Env (F := float) (RawFile := nat) :=
  {| stored := Some 0%nat; selected := Some pix_region |}.

Definition env_no_selection : Env (F := float) (RawFile := nat) :=
  {| stored := Some 1%nat; selected := None |}.

End Demo.

(** ** Further settings *)

Section HDULists.

Context {F Header : Type}.

(** Two HDU lists with the same names and the same data, entry by entry,
    and the same header in second place; the other headers are free. *)
Definition same_but_headers (h h' : HDUList (F := F) (Header := Header)) : Prop :=
  Forall2 (fun p p' => fst p = fst p' /\ data (snd p) = data (snd p')) h h' /\
  option_map (fun p => header (snd p)) (nth_error h 1) =
  option_map (fun p => header (snd p)) (nth_error h' 1).

End HDULists.

Module Cases.

Import PrimFloat Demo.

(** A cube with no wavelength at all. *)
Definition spec1d_no_axis : Spectrum1D (F := float) (U := Unit) (list (Image float)) :=
  {| flux := {| value := []; unit := MJy_sr |};
     spectral_axis := {| value := []; unit := um |};
     uncertainty := None |}.

(** A photometry that rejects every image whose pixels sum to 8. *)
Definition picky_photometry (call : PhotCall (F := float) (U := Unit) (SkyCoord := float * float) (WCS := LinearWCS float))
    : result (Table float) :=
  if (total (call_data call) =? 8)%float
  then Raise (LibraryError "rejected")
  else whole_image_photometry call.

(** Files without an ERR extension, without a SCI extension, and the demo
    file with other headers in the first and third place. *)
Definition hdulist_no_err : HDUList (F := float) (Header := LinearWCS float) :=
  [("PRIMARY"%string, {| header := w; data := [] |});
   ("SCI"%string, {| header := w; data := sci |})].

Definition hdulist_no_sci : HDUList (F := float) (Header := LinearWCS float) :=
  [("PRIMARY"%string, {| header := w; data := [] |});
   ("ERR"%string, {| header := w; data := err |})].

Definition w_other : LinearWCS float :=
  {| crpix := (0, 0)%float; crval := (0, 0)%float; scales := [3; 7]%float |}.

Definition hdulist_other_headers : HDUList (F := float) (Header := LinearWCS float) :=
  [("PRIMARY"%string, {| header := w_other; data := [] |});
   ("SCI"%string, {| header := w; data := sci |});
   ("ERR"%string, {| header := w_other; data := err |})].

Definition decode_no_err (raw : nat) : option (HDUList (F := float) (Header := LinearWCS float)) :=
  Some hdulist_no_err.

Definition decode_no_sci (raw : nat) : option (HDUList (F := float) (Header := LinearWCS float)) :=
  Some hdulist_no_sci.

Definition decode_other_headers (raw : nat) : option (HDUList (F := float) (Header := LinearWCS float)) :=
  match raw with
  | 1%nat => Some hdulist_other_headers
  | 2%nat => Some hdulist_short_err
  | _ => None
  end.

(** The demo WCS with the signs of both scales flipped. *)
Definition w_flipped : LinearWCS float :=
  {| crpix := (1, 1)%float; crval := (10, 20)%float;
     scales := [0.5%float; (-0.5)%float] |}.

(** A photometry that reports the radius of the aperture it is given as
    the sum, so that the extracted flux shows the radii used. *)
Definition radius_probe (call : PhotCall (F := float) (U := Unit) (SkyCoord := float * float) (WCS := LinearWCS float))
    : result (Table float) :=
  Ok [("aperture_sum"%string, [value (r (call_aperture call))]);
      ("aperture_sum_err"%string, [0%float])].

(** A WCS with both scales at 1e200 (written in binary64), whose product
    is more than binary64 holds, and a selection of radius zero. *)
Definition w_huge : LinearWCS float :=
  {| crpix := (1, 1)%float; crval := (10, 20)%float;
     scales := [0x1.4e718d7d7625ap+664%float; 0x1.4e718d7d7625ap+664%float] |}.

Definition pix_region_point : CirclePixelRegion (F := float) :=
  {| pix_center := {| x := 2%float; y := 3%float |}; pix_radius := 0%float |}.

End Cases.

(** ** Results, zips and loops *)

Lemma bind_Ok_inv (A B : Type) (m : result A) (k : A -> result B) (b : B) :
  bind m k = Ok b -> exists a, m = Ok a /\ k a = Ok b.
Proof.
  destruct m as [a | e]; simpl; intros H.
  - exists a. split; [reflexivity | exact H].
  - discriminate H.
Qed.

Lemma getitem_Ok (A : Type) (l : list A) (i : nat) (a : A) :
  getitem l i = Ok a <-> nth_error l i = Some a.
Proof.
  unfold getitem. destruct (nth_error l i) as [a' |]; split; intros H;
    try discriminate H; inversion H; reflexivity.
Qed.

Lemma zip3_length (A B C : Type) (a : list A) (b : list B) (c : list C) :
  length (zip3 a b c) = Nat.min (length a) (Nat.min (length b) (length c)).
Proof.
  revert b c. induction a as [| x a IH]; intros [| y b] [| z c]; simpl; try reflexivity.
  rewrite IH. reflexivity.
Qed.

Lemma zip3_nth_error (A B C : Type) (a : list A) (b : list B) (c : list C)
    (i : nat) (x : A) (y : B) (z : C) :
  nth_error (zip3 a b c) i = Some (x, y, z) <->
  nth_error a i = Some x /\ nth_error b i = Some y /\ nth_error c i = Some z.
Proof.
  revert b c i. induction a as [| x0 a IH]; intros b c i.
  - simpl. destruct i; simpl; split; intros H; try discriminate H;
      destruct H as [H _]; discriminate H.
  - destruct b as [| y0 b]; [| destruct c as [| z0 c]].
    + simpl. destruct i; simpl; split; intros H; try discriminate H;
        destruct H as [_ [H _]]; discriminate H.
    + simpl. destruct i; simpl; split; intros H; try discriminate H;
        destruct H as [_ [_ H]]; discriminate H.
    + destruct i as [| i]; simpl.
      * split.
        -- intros H. inversion H. auto.
        -- intros [H1 [H2 H3]]. inversion H1. inversion H2. inversion H3. reflexivity.
      * apply IH.
Qed.

(** Planes beyond the shortest of the three are never visited. *)
Lemma zip3_firstn (A B C : Type) (a : list A) (b : list B) (c : list C) (n : nat) :
  length (zip3 a b c) <= n ->
  zip3 (firstn n a) (firstn n b) (firstn n c) = zip3 a b c.
Proof.
  revert b c n. induction a as [| x a IH]; intros b c n Hn.
  - rewrite firstn_nil. reflexivity.
  - destruct b as [| y b].
    + rewrite firstn_nil. destruct (firstn n (x :: a)); reflexivity.
    + destruct c as [| z c].
      * rewrite firstn_nil.
        destruct (firstn n (x :: a)); [reflexivity |].
        destruct (firstn n (y :: b)); reflexivity.
      * destruct n as [| n]; simpl in Hn; [lia |].
        simpl. rewrite IH by lia. reflexivity.
Qed.

Lemma mapM_length (X Y : Type) (f : X -> result Y) (xs : list X) (ys : list Y) :
  mapM f xs = Ok ys -> length ys = length xs.
Proof.
  revert ys. induction xs as [| x xs IH]; simpl; intros ys H.
  - inversion H. reflexivity.
  - apply bind_Ok_inv in H. destruct H as [y [_ H]].
    apply bind_Ok_inv in H. destruct H as [ys' [Hys H]].
    inversion H. simpl. rewrite (IH ys' Hys). reflexivity.
Qed.

Lemma mapM_nth_error (X Y : Type) (f : X -> result Y) (xs : list X) (ys : list Y) :
  mapM f xs = Ok ys ->
  forall i y, nth_error ys i = Some y ->
  exists x, nth_error xs i = Some x /\ f x = Ok y.
Proof.
  revert ys. induction xs as [| x xs IH]; simpl; intros ys H i y Hi.
  - inversion H; subst. destruct i; discriminate Hi.
  - apply bind_Ok_inv in H. destruct H as [y0 [Hy0 H]].
    apply bind_Ok_inv in H. destruct H as [ys' [Hys H]].
    inversion H; subst. destruct i as [| i]; simpl in Hi.
    + inversion Hi; subst. exists x. split; [reflexivity | exact Hy0].
    + apply (IH ys' Hys i y Hi).
Qed.

Lemma nth_error_iter_quantity (A U : Type) (q : Quantity (list A) U) (i : nat) :
  nth_error (iter_quantity q) i =
  option_map (fun v => {| value := v; unit := unit q |}) (nth_error (value q) i).
Proof.
  unfold iter_quantity. apply nth_error_map.
Qed.

Lemma iter_quantity_length (A U : Type) (q : Quantity (list A) U) :
  length (iter_quantity q) = length (value q).
Proof.
  unfold iter_quantity. apply length_map.
Qed.

(** ** The extraction loop *)

Section ExtractionLoop.

Context {F : Type} {numF : Number F}.
Context {U : Type} {unitU : UnitAlgebra U}.
Context {SkyCoord Header WCS : Type} {wcsL : WCSLibrary F SkyCoord Header WCS}.
Context (aperture_photometry : PhotCall (F := F) (U := U) (SkyCoord := SkyCoord) (WCS := WCS)
                               -> result (Table F)).

Variable region : CircleSkyRegion (F := F) (U := U) (SkyCoord := SkyCoord).
Variable aperture : SkyCircularAperture (F := F) (U := U) (SkyCoord := SkyCoord).
Variable w : WCS.

Abbreviation photometry := (slice_photometry aperture_photometry region aperture w).
Abbreviation call_of := (slice_call region aperture w).
Abbreviation body := (loop_body aperture_photometry region aperture w).

(** One pass of the body appends the slice's sum and error, and logs the call. *)
Lemma loop_body_spec (reference_wavelength : Quantity F U) (st : LoopState)
    (item : Quantity F U * Image F * Image F) :
  body reference_wavelength st item =
  (fe <- photometry reference_wavelength item ;;
   Ok {| flux_sum := flux_sum st ++ [fst fe];
         err_sum := err_sum st ++ [snd fe];
         calls := calls st ++ [call_of reference_wavelength item] |}).
Proof.
  destruct item as [[wavelength sci_slice] err_slice].
  unfold loop_body, slice_photometry, first_row, slice_call.
  destruct (aperture_photometry _) as [phot_table | ex]; simpl; [| reflexivity].
  destruct (getitem_name phot_table "aperture_sum") as [col | ex]; simpl; [| reflexivity].
  destruct (getitem col 0) as [f | ex]; simpl; [| reflexivity].
  destruct (getitem_name phot_table "aperture_sum_err") as [col_err | ex]; simpl; [| reflexivity].
  destruct (getitem col_err 0) as [e | ex]; simpl; reflexivity.
Qed.

(** The loop with its two accumulators is a left-to-right map. *)
Lemma for_loop_spec (reference_wavelength : Quantity F U)
    (items : list (Quantity F U * Image F * Image F)) (st : LoopState) :
  for_loop (body reference_wavelength) items st =
  (ms <- mapM (photometry reference_wavelength) items ;;
   Ok {| flux_sum := flux_sum st ++ map fst ms;
         err_sum := err_sum st ++ map snd ms;
         calls := calls st ++ map (call_of reference_wavelength) items |}).
Proof.
  revert st. induction items as [| item items IH]; intros st.
  - simpl. rewrite !app_nil_r. destruct st; reflexivity.
  - cbn [for_loop mapM]. rewrite loop_body_spec.
    destruct (photometry reference_wavelength item) as [fe | ex]; simpl; [| reflexivity].
    rewrite IH. simpl.
    destruct (mapM (photometry reference_wavelength) items) as [ms | ex]; simpl; [| reflexivity].
    rewrite <- !app_assoc. reflexivity.
Qed.

Variable spec1d : Spectrum1D (F := F) (U := U) (list (Image F)).
Variables sci err : list (Image F).

Abbreviation axis := (iter_quantity (spectral_axis spec1d)).

Lemma extraction_loop_spec :
  extraction_loop aperture_photometry region aperture w spec1d sci err =
  (reference_wavelength <- getitem axis 0 ;;
   ms <- mapM (photometry reference_wavelength) (zip3 axis sci err) ;;
   Ok {| flux_sum := map fst ms;
         err_sum := map snd ms;
         calls := map (call_of reference_wavelength) (zip3 axis sci err) |}).
Proof.
  unfold extraction_loop.
  destruct (getitem axis 0) as [reference_wavelength | ex]; simpl; [| reflexivity].
  apply for_loop_spec.
Qed.

Lemma n_slices_zip3 : length (zip3 axis sci err) = n_slices spec1d sci err.
Proof.
  rewrite zip3_length, iter_quantity_length. reflexivity.
Qed.

(** What a finished loop leaves behind. *)
Lemma extraction_loop_Ok (st : LoopState) :
  extraction_loop aperture_photometry region aperture w spec1d sci err = Ok st ->
  exists reference_wavelength ms,
    getitem axis 0 = Ok reference_wavelength /\
    mapM (photometry reference_wavelength) (zip3 axis sci err) = Ok ms /\
    flux_sum st = map fst ms /\
    err_sum st = map snd ms /\
    calls st = map (call_of reference_wavelength) (zip3 axis sci err).
Proof.
  rewrite extraction_loop_spec. intros H.
  apply bind_Ok_inv in H. destruct H as [reference_wavelength [Href H]].
  apply bind_Ok_inv in H. destruct H as [ms [Hms H]].
  inversion H; subst; simpl.
  exists reference_wavelength, ms. repeat split; assumption.
Qed.

Lemma extraction_loop_lengths (st : LoopState) :
  extraction_loop aperture_photometry region aperture w spec1d sci err = Ok st ->
  length (flux_sum st) = n_slices spec1d sci err /\
  length (err_sum st) = n_slices spec1d sci err /\
  length (calls st) = n_slices spec1d sci err.
Proof.
  intros H. destruct (extraction_loop_Ok H) as [ref [ms [_ [Hms [Hf [He Hc]]]]]].
  rewrite Hf, He, Hc, !length_map, (mapM_length _ _ Hms), n_slices_zip3. auto.
Qed.

(** Entry [i] of the two lists comes from slice [i]. *)
Lemma extraction_loop_slice (st : LoopState) (i : nat) (f e : F) :
  extraction_loop aperture_photometry region aperture w spec1d sci err = Ok st ->
  nth_error (flux_sum st) i = Some f ->
  nth_error (err_sum st) i = Some e ->
  exists reference_wavelength wavelength sci_slice err_slice,
    getitem axis 0 = Ok reference_wavelength /\
    nth_error axis i = Some wavelength /\
    nth_error sci i = Some sci_slice /\
    nth_error err i = Some err_slice /\
    photometry reference_wavelength (wavelength, sci_slice, err_slice) = Ok (f, e).
Proof.
  intros H Hfi Hei.
  destruct (extraction_loop_Ok H) as [ref [ms [Href [Hms [Hf [He _]]]]]].
  rewrite Hf, nth_error_map in Hfi. rewrite He, nth_error_map in Hei.
  destruct (nth_error ms i) as [[f' e'] |] eqn:Hm; simpl in Hfi, Hei; [| discriminate Hfi].
  inversion Hfi; inversion Hei; subst f' e'.
  destruct (mapM_nth_error _ _ Hms _ Hm) as [[[wavelength sci_slice] err_slice] [Hitem Hphot]].
  apply zip3_nth_error in Hitem. destruct Hitem as [Ha [Hs Hr]].
  exists ref, wavelength, sci_slice, err_slice. repeat split; assumption.
Qed.

Lemma extract_Ok (out : Spectrum1D (list F)) :
  extract aperture_photometry region aperture w spec1d sci err = Ok out ->
  exists st,
    extraction_loop aperture_photometry region aperture w spec1d sci err = Ok st /\
    out = {| flux := times_unit (flux_sum st) (unit (flux spec1d));
             spectral_axis := spectral_axis spec1d;
             uncertainty := Some (StdDevUncertainty (err_sum st)) |}.
Proof.
  unfold extract, Spectrum1D_init. intros H.
  apply bind_Ok_inv in H. destruct H as [st [Hst H]].
  exists st. split; [exact Hst |].
  destruct (_ && _); [| discriminate H]. inversion H. reflexivity.
Qed.

(** The constructor lets a spectrum through only when the flux has the
    length of the spectral axis. *)
Lemma extract_Ok_length (out : Spectrum1D (list F)) :
  extract aperture_photometry region aperture w spec1d sci err = Ok out ->
  length (value (flux out)) = length (value (spectral_axis out)).
Proof.
  unfold extract, Spectrum1D_init. intros H.
  apply bind_Ok_inv in H. destruct H as [st [_ H]].
  destruct (_ && _) eqn:Hc; [| discriminate H].
  apply andb_true_iff in Hc. destruct Hc as [Hc _]. apply Nat.eqb_eq in Hc.
  inversion H. simpl in *. exact Hc.
Qed.

(** C1: for every slice index [i] the loop visits, the photometry of slice
    [i] is run on the aperture centred on the region whose radius is the
    sky aperture's radius times [spectral_axis[i]], divided by
    [spectral_axis[0]]: the table that [aperture_photometry] returns for
    that aperture (with slice [i]'s images) is the one whose first rows are
    entry [i] of [flux_sum] and of [err_sum].  The radius scales linearly
    with wavelength, the first wavelength being the reference. *)
Theorem aperture_radius_scales_with_wavelength (st : LoopState) :
  extraction_loop aperture_photometry region aperture w spec1d sci err = Ok st ->
  length (calls st) = n_slices spec1d sci err /\
  forall i, i < n_slices spec1d sci err ->
    exists wavelength reference_wavelength sci_slice err_slice phot_table f e,
      nth_error axis i = Some wavelength /\
      nth_error axis 0 = Some reference_wavelength /\
      nth_error sci i = Some sci_slice /\
      nth_error err i = Some err_slice /\
      let aperture_cone :=
        {| positions := center region;
           r := {| value := fdiv (fmul (value (r aperture)) (value wavelength))
                                 (value reference_wavelength);
                   unit := udiv (umul (unit (r aperture)) (unit wavelength))
                                (unit reference_wavelength) |} |} in
      let call :=
        {| call_data := sci_slice;
           call_aperture := aperture_cone;
           call_wcs := celestial w;
           call_method := exact;
           call_error := Some err_slice |} in
      r aperture_cone = qdiv (qmul (r aperture) wavelength) reference_wavelength /\
      aperture_photometry call = Ok phot_table /\
      first_row phot_table "aperture_sum" = Ok f /\
      first_row phot_table "aperture_sum_err" = Ok e /\
      nth_error (flux_sum st) i = Some f /\
      nth_error (err_sum st) i = Some e /\
      nth_error (calls st) i = Some call.
Proof.
  intros H. destruct (extraction_loop_lengths H) as [Lf [Le Lc]].
  split; [exact Lc |].
  intros i Hi.
  destruct (nth_error (flux_sum st) i) as [f |] eqn:Hf;
    [| apply nth_error_None in Hf; lia].
  destruct (nth_error (err_sum st) i) as [e |] eqn:He;
    [| apply nth_error_None in He; lia].
  destruct (extraction_loop_slice i H Hf He)
    as [ref [wavelength [sci_slice [err_slice [Href [Ha [Hs [Hr Hphot]]]]]]]].
  destruct (extraction_loop_Ok H) as [ref' [ms [Href' [_ [_ [_ Hc]]]]]].
  rewrite Href in Href'. inversion Href'; subst ref'. clear Href'.
  apply getitem_Ok in Href.
  unfold slice_photometry, slice_call in Hphot.
  apply bind_Ok_inv in Hphot. destruct Hphot as [phot_table [Htable Hphot]].
  apply bind_Ok_inv in Hphot. destruct Hphot as [f' [Hf' Hphot]].
  apply bind_Ok_inv in Hphot. destruct Hphot as [e' [He' Hphot]].
  inversion Hphot; subst f' e'.
  exists wavelength, ref, sci_slice, err_slice, phot_table, f, e.
  split; [exact Ha |]. split; [exact Href |]. split; [exact Hs |]. split; [exact Hr |].
  cbv zeta. split; [reflexivity |]. split; [exact Htable |].
  split; [exact Hf' |]. split; [exact He' |].
  split; [reflexivity |]. split; [reflexivity |].
  rewrite Hc, nth_error_map.
  assert (Hitem : nth_error (zip3 axis sci err) i = Some (wavelength, sci_slice, err_slice))
    by (apply zip3_nth_error; auto).
  rewrite Hitem. reflexivity.
Qed.

(** C2: the loop is one exact-method aperture photometry per visited slice,
    in slice order.  As an equation: the loop is the left-to-right map of
    the per-slice photometry over the zipped slices, and the first exception
    ends it.  Slice by slice: when the loop ends, [flux_sum] and [err_sum]
    have one entry per visited slice, and entry [i] of [flux_sum] is the
    first row of [aperture_sum], entry [i] of [err_sum] the first row of
    [aperture_sum_err], of the table that [aperture_photometry] returns for
    slice [i]'s science image, the wavelength-scaled aperture, the celestial
    WCS, [method="exact"] and slice [i]'s error image. *)
Theorem loop_is_photometry_of_each_slice :
  extraction_loop aperture_photometry region aperture w spec1d sci err =
  (reference_wavelength <- getitem axis 0 ;;
   ms <- mapM (photometry reference_wavelength) (zip3 axis sci err) ;;
   Ok {| flux_sum := map fst ms;
         err_sum := map snd ms;
         calls := map (call_of reference_wavelength) (zip3 axis sci err) |}) /\
  forall st,
    extraction_loop aperture_photometry region aperture w spec1d sci err = Ok st ->
    length (flux_sum st) = n_slices spec1d sci err /\
    length (err_sum st) = n_slices spec1d sci err /\
    forall i, i < n_slices spec1d sci err ->
      exists wavelength reference_wavelength sci_slice err_slice phot_table f e,
        nth_error axis i = Some wavelength /\
        nth_error axis 0 = Some reference_wavelength /\
        nth_error sci i = Some sci_slice /\
        nth_error err i = Some err_slice /\
        aperture_photometry
          {| call_data := sci_slice;
             call_aperture :=
               {| positions := center region;
                  r := qdiv (qmul (r aperture) wavelength) reference_wavelength |};
             call_wcs := celestial w;
             call_method := exact;
             call_error := Some err_slice |} = Ok phot_table /\
        first_row phot_table "aperture_sum" = Ok f /\
        first_row phot_table "aperture_sum_err" = Ok e /\
        nth_error (flux_sum st) i = Some f /\
        nth_error (err_sum st) i = Some e.
Proof.
  split; [exact extraction_loop_spec |].
  intros st H.
  destruct (extraction_loop_lengths H) as [Lf [Le _]].
  split; [exact Lf |]. split; [exact Le |].
  intros i Hi.
  destruct (nth_error (flux_sum st) i) as [f |] eqn:Hf;
    [| apply nth_error_None in Hf; lia].
  destruct (nth_error (err_sum st) i) as [e |] eqn:He;
    [| apply nth_error_None in He; lia].
  destruct (extraction_loop_slice i H Hf He)
    as [ref [wavelength [sci_slice [err_slice [Href [Ha [Hs [Hr Hphot]]]]]]]].
  apply getitem_Ok in Href.
  unfold slice_photometry, slice_call in Hphot.
  apply bind_Ok_inv in Hphot. destruct Hphot as [phot_table [Htable Hphot]].
  apply bind_Ok_inv in Hphot. destruct Hphot as [f' [Hf' Hphot]].
  apply bind_Ok_inv in Hphot. destruct Hphot as [e' [He' Hphot]].
  inversion Hphot; subst f' e'.
  exists wavelength, ref, sci_slice, err_slice, phot_table, f, e.
  repeat split; assumption.
Qed.

(** C3: whenever the extraction assembles a spectrum, its flux array, its
    uncertainty array and its wavelength array have the same length, the
    number of slices the loop visited: the loop fills the first two in
    step, and the constructor holds them against the spectral axis. *)
Theorem output_lengths (out : Spectrum1D (list F)) :
  extract aperture_photometry region aperture w spec1d sci err = Ok out ->
  (exists u, uncertainty out = Some u /\ length (array u) = length (value (flux out))) /\
  length (value (flux out)) = length (value (spectral_axis out)) /\
  length (value (flux out)) = n_slices spec1d sci err.
Proof.
  intros H. pose proof (extract_Ok_length H) as Hlen.
  destruct (extract_Ok H) as [st [Hst Hout]].
  destruct (extraction_loop_lengths Hst) as [Lf [Le _]].
  subst out. simpl in *. split; [| split].
  - exists (StdDevUncertainty (err_sum st)). simpl. split; [reflexivity | congruence].
  - exact Hlen.
  - exact Lf.
Qed.

(** C6: the output spectrum's spectral axis is the input cube's, unchanged,
    and entry [i] of the output flux is the photometric sum of the slice
    at entry [i] of that axis. *)
Theorem spectral_axis_unchanged (out : Spectrum1D (list F)) :
  extract aperture_photometry region aperture w spec1d sci err = Ok out ->
  spectral_axis out = spectral_axis spec1d /\
  forall i f, nth_error (value (flux out)) i = Some f ->
    exists wavelength reference_wavelength sci_slice err_slice e,
      nth_error (iter_quantity (spectral_axis out)) i = Some wavelength /\
      nth_error (iter_quantity (spectral_axis out)) 0 = Some reference_wavelength /\
      nth_error sci i = Some sci_slice /\
      nth_error err i = Some err_slice /\
      photometry reference_wavelength (wavelength, sci_slice, err_slice) = Ok (f, e).
Proof.
  intros H. destruct (extract_Ok H) as [st [Hst Hout]].
  subst out. simpl. split; [reflexivity |].
  intros i f Hf.
  destruct (extraction_loop_lengths Hst) as [Lf [Le _]].
  destruct (nth_error (err_sum st) i) as [e |] eqn:He.
  - destruct (extraction_loop_slice i Hst Hf He)
      as [ref [wavelength [sci_slice [err_slice [Href [Ha [Hs [Hr Hphot]]]]]]]].
    apply getitem_Ok in Href.
    exists wavelength, ref, sci_slice, err_slice, e. repeat split; assumption.
  - apply nth_error_None in He.
    assert (i < length (flux_sum st)) by (apply nth_error_Some; congruence). lia.
Qed.

(** C8: the loop visits the first [n_slices] entries of the spectral axis, of
    the SCI planes and of the ERR planes, [n_slices] being the least of the
    three lengths: surplus planes raise nothing and add nothing, and when
    the loop ends [flux_sum] and [err_sum] have exactly that length. *)
Theorem zip_truncates_to_shortest :
  let n := n_slices spec1d sci err in
  n = Nat.min (length (value (spectral_axis spec1d))) (Nat.min (length sci) (length err)) /\
  extraction_loop aperture_photometry region aperture w spec1d sci err =
  (reference_wavelength <- getitem axis 0 ;;
   ms <- mapM (photometry reference_wavelength)
              (zip3 (firstn n axis) (firstn n sci) (firstn n err)) ;;
   Ok {| flux_sum := map fst ms;
         err_sum := map snd ms;
         calls := map (call_of reference_wavelength)
                      (zip3 (firstn n axis) (firstn n sci) (firstn n err)) |}) /\
  extraction_loop aperture_photometry region aperture w spec1d sci err =
  extraction_loop aperture_photometry region aperture w spec1d (firstn n sci) (firstn n err) /\
  forall st,
    extraction_loop aperture_photometry region aperture w spec1d sci err = Ok st ->
    length (flux_sum st) = n /\ length (err_sum st) = n.
Proof.
  intros n.
  assert (Hz : zip3 (firstn n axis) (firstn n sci) (firstn n err) = zip3 axis sci err)
    by (apply zip3_firstn; rewrite n_slices_zip3; apply le_n).
  assert (Hz' : zip3 axis (firstn n sci) (firstn n err) = zip3 axis sci err).
  { rewrite <- (zip3_firstn axis (firstn n sci) (firstn n err) (n := n))
      by (rewrite zip3_length, !length_firstn; lia).
    rewrite !firstn_firstn, Nat.min_id. exact Hz. }
  split; [reflexivity |]. split; [| split].
  - rewrite Hz. exact extraction_loop_spec.
  - unfold extraction_loop. rewrite Hz'. reflexivity.
  - intros st H. destruct (extraction_loop_lengths H) as [Lf [Le _]]. auto.
Qed.

(** C9: the extracted flux carries the unit of the input cube's flux, and
    the extracted uncertainty is a standard-deviation uncertainty whose
    array holds, slice by slice, the photometric errors of the loop. *)
Theorem unit_preserved_and_stddev (out : Spectrum1D (list F)) :
  extract aperture_photometry region aperture w spec1d sci err = Ok out ->
  unit (flux out) = unit (flux spec1d) /\
  exists st,
    extraction_loop aperture_photometry region aperture w spec1d sci err = Ok st /\
    value (flux out) = flux_sum st /\
    uncertainty out = Some (StdDevUncertainty (err_sum st)) /\
    option_map (@uncertainty_type (list F)) (uncertainty out) = Some std /\
    forall i e, nth_error (err_sum st) i = Some e ->
      exists wavelength reference_wavelength sci_slice err_slice f,
        nth_error axis i = Some wavelength /\
        nth_error axis 0 = Some reference_wavelength /\
        nth_error sci i = Some sci_slice /\
        nth_error err i = Some err_slice /\
        photometry reference_wavelength (wavelength, sci_slice, err_slice) = Ok (f, e).
Proof.
  intros H. destruct (extract_Ok H) as [st [Hst Hout]].
  subst out. simpl. split; [reflexivity |].
  exists st. repeat split; try assumption.
  intros i e He.
  destruct (extraction_loop_lengths Hst) as [Lf [Le _]].
  destruct (nth_error (flux_sum st) i) as [f |] eqn:Hf.
  - destruct (extraction_loop_slice i Hst Hf He)
      as [ref [wavelength [sci_slice [err_slice [Href [Ha [Hs [Hr Hphot]]]]]]]].
    apply getitem_Ok in Href.
    exists wavelength, ref, sci_slice, err_slice, f. repeat split; assumption.
  - apply nth_error_None in Hf.
    assert (i < length (err_sum st)) by (apply nth_error_Some; congruence). lia.
Qed.

End ExtractionLoop.

(** ** From the pixel region to the sky region *)

Section RegionConversion.

Context {F : Type} {numF : Number F}.
Context {U : Type} {unitU : UnitAlgebra U}.
Context {SkyCoord Header WCS : Type} {wcsL : WCSLibrary F SkyCoord Header WCS}.

Lemma np_prod_pair (a b : F) : np_prod [a; b] = fmul a b.
Proof. reflexivity. Qed.

(** C4: the sky centre is [pixel_to_world] of the celestial WCS at the pixel
    centre; the sky radius is in arcseconds and its value is the pixel
    radius times [sqrt(|prod(cdelt)|)] times 3600; the aperture takes both
    over.  For the two scales [a], [b] of a celestial WCS, in an arithmetic
    where [|a * b| = |a| * |b|], that pixel scale is [sqrt(|a| * |b|)], the
    geometric mean of the absolute scales. *)
Theorem pixel_region_to_sky_region (w : WCS) (pix_region : CirclePixelRegion) :
  center (sky_region w pix_region) =
    pixel_to_world (celestial w) (x (pix_center pix_region)) (y (pix_center pix_region)) /\
  unit (radius (sky_region w pix_region)) = arcsec /\
  value (radius (sky_region (U := U) w pix_region)) =
    fmul (fmul (pix_radius pix_region) (fsqrt (fabs (np_prod (cdelt (celestial w))))))
         (of_int 3600) /\
  positions (sky_aperture (sky_region (U := U) w pix_region)) = center (sky_region (U := U) w pix_region) /\
  r (sky_aperture (sky_region (U := U) w pix_region)) = radius (sky_region w pix_region) /\
  ((forall u v : F, fabs (fmul u v) = fmul (fabs u) (fabs v)) ->
   forall a b : F, cdelt (celestial w) = [a; b] ->
   pixel_scale w = fsqrt (fmul (fabs a) (fabs b))).
Proof.
  repeat split.
  intros Habs a b Hab. unfold pixel_scale. rewrite Hab, np_prod_pair, Habs. reflexivity.
Qed.

End RegionConversion.

(** ** Input errors *)

Section InputErrors.

Context {F : Type} {numF : Number F}.
Context {U : Type} {unitU : UnitAlgebra U}.
Context {SkyCoord Header WCS : Type} {wcsL : WCSLibrary F SkyCoord Header WCS}.
Context {libraries : Libraries (F := F) (U := U) (SkyCoord := SkyCoord)
                               (Header := Header) (WCS := WCS)}.
Context (aperture_photometry : PhotCall (F := F) (U := U) (SkyCoord := SkyCoord) (WCS := WCS)
                               -> result (Table F)).
Context {RawFile : Type}.
Context (decode_hdulist : RawFile -> option (HDUList (F := F) (Header := Header))).
Context (decode_spectrum : RawFile -> option (Spectrum1D (F := F) (U := U) (list (Image F)))).

Abbreviation run := (notebook aperture_photometry decode_hdulist decode_spectrum).
Abbreviation bad_input := (input_error decode_hdulist decode_spectrum).

Lemma notebook_no_selection (env : Env) :
  selected env = None -> run env = Raise ValueError.
Proof.
  intros H. unfold notebook, get_selection_definition. rewrite H. reflexivity.
Qed.

Lemma notebook_no_file (env : Env) :
  stored env = None -> exists e, run env = Raise e.
Proof.
  intros H. unfold notebook, get_selection_definition, fits_open. rewrite H.
  destruct (selected env); simpl; eexists; reflexivity.
Qed.

Lemma notebook_bad_file (env : Env) (raw : RawFile) :
  stored env = Some raw ->
  decode_hdulist raw = None \/ decode_spectrum raw = None ->
  exists e, run env = Raise e.
Proof.
  intros Hfile Hbad.
  unfold notebook, get_selection_definition, fits_open, Spectrum1D_read. rewrite Hfile.
  destruct (selected env) as [pix_region |]; simpl; [| eexists; reflexivity].
  destruct (decode_hdulist raw) as [hdulist |]; simpl; [| eexists; reflexivity].
  destruct Hbad as [Hbad | Hbad]; [discriminate Hbad |]. rewrite Hbad.
  destruct (getitem_name hdulist "SCI") as [sci_hdu | ex]; simpl; [| eexists; reflexivity].
  destruct (getitem_name hdulist "ERR") as [err_hdu | ex]; simpl; [| eexists; reflexivity].
  destruct (getitem hdulist 1) as [hdu1 | ex]; simpl; [| eexists; reflexivity].
  repeat (destruct (call _) as [[] | ex]; simpl; [| eexists; reflexivity]).
  eexists; reflexivity.
Qed.


End InputErrors.

(** ** Signs in binary64 *)

Import PrimFloat SpecFloat FloatOps FloatAxioms Demo.

(** Rounding keeps the sign it is given. *)
Lemma binary_round_aux_cases (s : bool) (m e : Z) (l : location) :
  let v := binary_round_aux prec emax s m e l in
  v = S754_nan \/ v = S754_zero s \/ v = S754_infinity s \/
  exists m' e', v = S754_finite s m' e'.
Proof.
  unfold binary_round_aux.
  destruct (shr_fexp prec emax m e l) as [mrs' e'].
  destruct (shr_fexp prec emax _ e' loc_Exact) as [mrs'' e''].
  destruct (shr_m mrs''); auto.
  destruct (Z.leb e'' (emax - prec)); eauto 6.
Qed.

Lemma SFabs_binary_round_aux (s : bool) (m e : Z) (l : location) :
  SFabs (binary_round_aux prec emax s m e l) = binary_round_aux prec emax false m e l.
Proof.
  unfold binary_round_aux.
  destruct (shr_fexp prec emax m e l) as [mrs' e'].
  destruct (shr_fexp prec emax _ e' loc_Exact) as [mrs'' e''].
  destruct (shr_m mrs''); try reflexivity.
  destruct (Z.leb e'' (emax - prec)); reflexivity.
Qed.

(** Rounding a non-negative mantissa never yields NaN. *)
Lemma shr_1_nonneg (mrs : shr_record) :
  (0 <= shr_m mrs)%Z -> (0 <= shr_m (shr_1 mrs))%Z.
Proof.
  destruct mrs as [m r0 s]. simpl. intros H.
  destruct m as [| p | p]; [simpl; lia | destruct p; simpl; lia | lia].
Qed.

Lemma iter_shr_1_nonneg (p : positive) (mrs : shr_record) :
  (0 <= shr_m mrs)%Z -> (0 <= shr_m (iter_pos shr_1 p mrs))%Z.
Proof.
  revert mrs. induction p as [p IH | p IH |]; intros mrs H; simpl.
  - apply IH, IH, shr_1_nonneg, H.
  - apply IH, IH, H.
  - apply shr_1_nonneg, H.
Qed.

Lemma shr_fexp_nonneg (m e : Z) (l : location) :
  (0 <= m)%Z -> (0 <= shr_m (fst (shr_fexp prec emax m e l)))%Z.
Proof.
  intros H. unfold shr_fexp, shr.
  assert (H0 : (0 <= shr_m (shr_record_of_loc m l))%Z).
  { destruct l as [| []]; exact H. }
  destruct (fexp prec emax (Zdigits2 m + e) - e)%Z; simpl; try exact H0.
  apply iter_shr_1_nonneg, H0.
Qed.

Lemma round_nearest_even_nonneg (m : Z) (l : location) :
  (0 <= m)%Z -> (0 <= round_nearest_even m l)%Z.
Proof.
  intros H. unfold round_nearest_even.
  destruct l as [| []]; try lia. destruct (Z.even m); lia.
Qed.

Lemma binary_round_aux_not_nan (s : bool) (m e : Z) (l : location) :
  (0 <= m)%Z -> binary_round_aux prec emax s m e l <> S754_nan.
Proof.
  intros H. unfold binary_round_aux.
  pose proof (@shr_fexp_nonneg m e l H) as H1.
  destruct (shr_fexp prec emax m e l) as [mrs' e']. simpl in H1.
  pose proof (@shr_fexp_nonneg _ e' loc_Exact
                (@round_nearest_even_nonneg _ (loc_of_shr_record mrs') H1)) as H2.
  destruct (shr_fexp prec emax _ e' loc_Exact) as [mrs'' e'']. simpl in H2.
  destruct (shr_m mrs''); try discriminate; try lia.
  destruct (Z.leb e'' (emax - prec)); discriminate.
Qed.

Lemma SFsqrt_core_binary_nonneg (m e : Z) :
  (0 <= fst (fst (SFsqrt_core_binary prec emax m e)))%Z.
Proof.
  unfold SFsqrt_core_binary.
  match goal with
  | |- context [Z.sqrtrem ?n] =>
      pose proof (Z.sqrtrem_sqrt n) as Hs; pose proof (Z.sqrt_nonneg n) as Hn;
      destruct (Z.sqrtrem n) as [q rest]
  end.
  simpl in *. lia.
Qed.

(** [abs], [sqrt] and [*] on values that are not below zero. *)
Lemma SFabs_not_negative (s : spec_float) : SF_not_negative (SFabs s).
Proof. destruct s; exact I. Qed.

Lemma SFabs_not_nan (s : spec_float) : s <> S754_nan -> SFabs s <> S754_nan.
Proof. destruct s; simpl; congruence. Qed.

Lemma SFsqrt_not_negative (s : spec_float) : SF_not_negative (SFsqrt prec emax s).
Proof.
  destruct s as [[] | [] | | [] m e]; simpl; try exact I.
  destruct (SFsqrt_core_binary prec emax (Z.pos m) e) as [[mz ez] lz].
  destruct (binary_round_aux_cases false mz ez lz) as [H | [H | [H | [m' [e' H]]]]];
    rewrite H; exact I.
Qed.

Lemma SFsqrt_not_nan (s : spec_float) :
  SF_not_negative s -> s <> S754_nan -> SFsqrt prec emax s <> S754_nan.
Proof.
  destruct s as [[] | [] | | [] m e]; simpl; intros Hs Hn;
    try discriminate; try contradiction.
  pose proof (SFsqrt_core_binary_nonneg (Z.pos m) e) as H.
  destruct (SFsqrt_core_binary prec emax (Z.pos m) e) as [[mz ez] lz].
  apply binary_round_aux_not_nan. exact H.
Qed.

Lemma SFmul_not_negative (a b : spec_float) :
  SF_not_negative a -> SF_not_negative b -> SF_not_negative (SFmul prec emax a b).
Proof.
  destruct a as [[] | [] | | [] ma ea]; destruct b as [[] | [] | | [] mb eb];
    simpl; intros Ha Hb; try exact I; try contradiction.
  destruct (binary_round_aux_cases false (Z.pos (ma * mb)) (ea + eb) loc_Exact)
    as [H | [H | [H | [m' [e' H]]]]]; rewrite H; exact I.
Qed.

Lemma SFabs_SFmul (a b : spec_float) :
  SFabs (SFmul prec emax a b) = SFmul prec emax (SFabs a) (SFabs b).
Proof.
  destruct a as [sa | sa | | sa ma ea]; destruct b as [sb | sb | | sb mb eb];
    simpl; try reflexivity.
  apply SFabs_binary_round_aux.
Qed.

(** The two tests against zero, read on the IEEE value. *)
Lemma float64_not_below_zero (v : float) :
  (v <? 0)%float = false <-> SF_not_negative (Prim2SF v).
Proof.
  rewrite ltb_spec. change (Prim2SF 0) with (S754_zero false).
  destruct (Prim2SF v) as [[] | [] | | [] m e]; simpl; split; intros H;
    try exact I; try reflexivity; try discriminate H; try contradiction.
Qed.

Lemma float64_zero_leb (v : float) :
  SF_not_negative (Prim2SF v) -> Prim2SF v <> S754_nan -> (0 <=? v)%float = true.
Proof.
  rewrite leb_spec. change (Prim2SF 0) with (S754_zero false).
  destruct (Prim2SF v) as [[] | [] | | [] m e]; simpl; intros H Hn;
    try reflexivity; try contradiction; congruence.
Qed.

Lemma float64_zero_leb_inv (v : float) :
  (0 <=? v)%float = true -> SF_not_negative (Prim2SF v).
Proof.
  rewrite leb_spec. change (Prim2SF 0) with (S754_zero false).
  destruct (Prim2SF v) as [[] | [] | | [] m e]; simpl; intros H;
    try exact I; discriminate H.
Qed.

Lemma float64_not_nan (v : float) : is_nan v = false -> Prim2SF v <> S754_nan.
Proof.
  unfold is_nan. rewrite eqb_spec. intros H Hn. rewrite Hn in H. discriminate H.
Qed.

(** In binary64 [|u * v| = |u| * |v|], bit for bit. *)
Lemma float64_abs_mul (u v : float) : fabs (fmul u v) = fmul (fabs u) (fabs v).
Proof.
  simpl. apply Prim2SF_inj.
  rewrite abs_spec, !mul_spec, !abs_spec. apply SFabs_SFmul.
Qed.

(** Numbers at or above zero. *)
Lemma SF_finite_intro (s : spec_float) :
  SF_not_negative s -> s <> S754_nan ->
  (forall b, s <> S754_infinity b) ->
  SF_finite_at_least_zero s.
Proof.
  destruct s as [b | b | | [] m e]; simpl; intros Hs Hn Hi;
    try exact I; try contradiction; try congruence.
Qed.

Lemma SFmul_finite_at_least_zero (a b : spec_float) :
  SF_finite_at_least_zero a -> SF_finite_at_least_zero b ->
  SF_at_least_zero (SFmul prec emax a b).
Proof.
  destruct a as [sa | sa | | [] ma ea]; destruct b as [sb | sb | | [] mb eb];
    simpl; intros Ha Hb; try exact I; try contradiction.
  pose proof (@binary_round_aux_not_nan false (Z.pos (ma * mb)) (ea + eb) loc_Exact
                (Pos2Z.is_nonneg _)) as Hn.
  destruct (binary_round_aux_cases false (Z.pos (ma * mb)) (ea + eb) loc_Exact)
    as [H | [H | [H | [m' [e' H]]]]]; rewrite H in *; try exact I. congruence.
Qed.

Lemma SFmul_by_positive (a b : spec_float) :
  SF_at_least_zero a -> (exists m e, b = S754_finite false m e) ->
  SF_at_least_zero (SFmul prec emax a b).
Proof.
  intros Ha [mb [eb Hb]]. subst b.
  destruct a as [sa | [] | | [] ma ea]; simpl in *; try exact I; try contradiction.
  pose proof (@binary_round_aux_not_nan false (Z.pos (ma * mb)) (ea + eb) loc_Exact
                (Pos2Z.is_nonneg _)) as Hn.
  destruct (binary_round_aux_cases false (Z.pos (ma * mb)) (ea + eb) loc_Exact)
    as [H | [H | [H | [m' [e' H]]]]]; rewrite H in *; try exact I. congruence.
Qed.

Lemma float64_at_least_zero_leb (v : float) :
  SF_at_least_zero (Prim2SF v) -> (0 <=? v)%float = true.
Proof.
  rewrite leb_spec. change (Prim2SF 0) with (S754_zero false).
  destruct (Prim2SF v) as [[] | [] | | [] m e]; simpl; intros H;
    try reflexivity; contradiction.
Qed.

Lemma float64_zero_leb_not_nan (v : float) :
  (0 <=? v)%float = true -> Prim2SF v <> S754_nan.
Proof.
  rewrite leb_spec. change (Prim2SF 0) with (S754_zero false).
  intros H Hn. rewrite Hn in H. discriminate H.
Qed.

Lemma float64_not_infinity (v : float) :
  is_infinity v = false -> forall b, Prim2SF v <> S754_infinity b.
Proof.
  unfold is_infinity. rewrite eqb_spec, abs_spec.
  change (Prim2SF infinity) with (S754_infinity false).
  intros H b Hv. rewrite Hv in H. discriminate H.
Qed.

Section Binary64Signs.

Context {U : Type} {unitU : UnitAlgebra U}.
Context {SkyCoord Header WCS : Type} {wcsL : WCSLibrary float SkyCoord Header WCS}.

Lemma float64_pixel_scale_not_negative (w : WCS) : SF_not_negative (Prim2SF (pixel_scale w)).
Proof.
  unfold pixel_scale. simpl. rewrite sqrt_spec. apply SFsqrt_not_negative.
Qed.

(** With a pixel radius and a pixel scale that are finite numbers at or
    above zero, the radius is a number at or above zero. *)
Lemma float64_sky_radius_at_least_zero (w : WCS) (pix_region : CirclePixelRegion (F := float)) :
  SF_finite_at_least_zero (Prim2SF (pix_radius pix_region)) ->
  SF_finite_at_least_zero (Prim2SF (pixel_scale w)) ->
  SF_at_least_zero (Prim2SF (value (radius (sky_region (U := U) w pix_region)))).
Proof.
  intros Hr Hs.
  unfold sky_region, times_unit. cbn [value radius fmul of_int float64].
  rewrite !mul_spec.
  apply SFmul_by_positive; [apply SFmul_finite_at_least_zero; assumption |].
  vm_compute. eexists. eexists. reflexivity.
Qed.

(** C10, as the code has it, in binary64: whatever the signs of [cdelt], the
    argument of the square root is never below zero and the pixel scale is
    never below zero; the square root yields no NaN of its own (the pixel
    scale is a number at or above zero unless the product of the scales is
    NaN); a pixel radius at or above zero gives a sky radius that is never
    below zero, and that is a number at or above zero whenever the product
    of the scales is a number and the pixel radius and the pixel scale are
    finite. *)
Theorem sky_radius_nonnegative (w : WCS) (pix_region : CirclePixelRegion (F := float)) :
  (0 <=? pix_radius pix_region)%float = true ->
  (fabs (np_prod (cdelt (celestial w))) <? 0)%float = false /\
  (pixel_scale w <? 0)%float = false /\
  (is_nan (np_prod (cdelt (celestial w))) = false ->
   (0 <=? pixel_scale w)%float = true) /\
  (value (radius (sky_region (U := U) w pix_region)) <? 0)%float = false /\
  (is_nan (np_prod (cdelt (celestial w))) = false ->
   is_infinity (pixel_scale w) = false ->
   is_infinity (pix_radius pix_region) = false ->
   (0 <=? value (radius (sky_region (U := U) w pix_region)))%float = true).
Proof.
  intros Hr.
  assert (Hscale : is_nan (np_prod (cdelt (celestial w))) = false ->
                   Prim2SF (pixel_scale w) <> S754_nan).
  { intros Hn. unfold pixel_scale. simpl. rewrite sqrt_spec, abs_spec.
    apply SFsqrt_not_nan; [apply SFabs_not_negative |].
    apply SFabs_not_nan, float64_not_nan, Hn. }
  split; [| split; [| split; [| split]]].
  - apply float64_not_below_zero. simpl. rewrite abs_spec. apply SFabs_not_negative.
  - apply float64_not_below_zero, float64_pixel_scale_not_negative.
  - intros Hn. apply float64_zero_leb; [apply float64_pixel_scale_not_negative |].
    apply Hscale, Hn.
  - apply float64_not_below_zero.
    unfold sky_region, times_unit. cbn [value radius fmul of_int float64].
    rewrite !mul_spec.
    apply SFmul_not_negative; [apply SFmul_not_negative |].
    + apply float64_zero_leb_inv, Hr.
    + apply float64_pixel_scale_not_negative.
    + vm_compute. exact I.
  - intros Hn Hfs Hfr.
    apply float64_at_least_zero_leb, float64_sky_radius_at_least_zero.
    + apply SF_finite_intro;
        [apply float64_zero_leb_inv, Hr | apply (float64_zero_leb_not_nan Hr) |
         apply float64_not_infinity, Hfr].
    + apply SF_finite_intro;
        [apply float64_pixel_scale_not_negative | apply Hscale, Hn |
         apply float64_not_infinity, Hfs].
Qed.

End Binary64Signs.

(** ** The theorems at work on the concrete setting *)

(** With a photometry that reports the radius it is given, the third
    entry of the extracted flux is the selected radius of 3600 arcseconds
    times 2, divided by 1. *)
Lemma aperture_radius_scales_with_wavelength_witness :
  exists st,
    extraction_loop Cases.radius_probe Demo.region Demo.aperture Demo.w
      Demo.spec1d Demo.sci Demo.err = Ok st /\
    nth_error (flux_sum st) 2 = Some (3600 * 2 / 1)%float.
Proof.
  assert (H : exists st,
             extraction_loop Cases.radius_probe Demo.region Demo.aperture Demo.w
               Demo.spec1d Demo.sci Demo.err = Ok st)
    by (eexists; vm_compute; reflexivity).
  destruct H as [st H]. exists st. split; [exact H |].
  destruct (aperture_radius_scales_with_wavelength _ _ _ _ _ _ _ H) as [_ Hall].
  destruct (Hall 2%nat) as [wl [ref [s [e0 [t [f [e [Hwl [Href [_ [_ Hrest]]]]]]]]]]].
  { vm_compute. lia. }
  cbv zeta in Hrest. destruct Hrest as [_ [Ht [Hf [_ [Hfi _]]]]].
  vm_compute in Hwl, Href. inversion Hwl; subst wl. inversion Href; subst ref.
  unfold Cases.radius_probe in Ht. inversion Ht; subst t.
  vm_compute in Hf. inversion Hf; subst f.
  rewrite Hfi. vm_compute. reflexivity.
Defined.

Lemma loop_is_photometry_of_each_slice_witness :
  exists st,
    extraction_loop Demo.whole_image_photometry Demo.region Demo.aperture Demo.w
      Demo.spec1d Demo.sci Demo.err = Ok st /\
    length (flux_sum st) = 3%nat /\
    length (err_sum st) = 3%nat.
Proof.
  assert (H : exists st,
             extraction_loop Demo.whole_image_photometry Demo.region Demo.aperture Demo.w
               Demo.spec1d Demo.sci Demo.err = Ok st)
    by (eexists; vm_compute; reflexivity).
  destruct H as [st H]. exists st. split; [exact H |].
  destruct (proj2 (loop_is_photometry_of_each_slice Demo.whole_image_photometry
                     Demo.region Demo.aperture Demo.w Demo.spec1d Demo.sci Demo.err) st H)
    as [Lf [Le _]].
  split; [exact Lf | exact Le].
Defined.

Lemma output_lengths_witness :
  exists out,
    extract Demo.whole_image_photometry Demo.region Demo.aperture Demo.w
      Demo.spec1d Demo.sci Demo.err = Ok out /\
    length (value (flux out)) = length (value (spectral_axis out)) /\
    length (value (flux out)) = 3%nat.
Proof.
  assert (H : exists out,
             extract Demo.whole_image_photometry Demo.region Demo.aperture Demo.w
               Demo.spec1d Demo.sci Demo.err = Ok out)
    by (eexists; vm_compute; reflexivity).
  destruct H as [out H]. exists out. split; [exact H |].
  destruct (output_lengths _ _ _ _ _ _ _ H) as [_ [Hlen Hn]].
  split; [exact Hlen | exact Hn].
Defined.

(** The file whose ERR extension has a single plane: the loop visits one
    slice, and the constructor refuses one flux beside three wavelengths. *)
Example short_err_file_raises_ValueError :
  notebook Demo.whole_image_photometry Demo.decode_hdulist Demo.decode_spectrum
    Demo.env_short_err = Raise ValueError.
Proof. vm_compute. reflexivity. Qed.

Lemma spectral_axis_unchanged_witness :
  exists out,
    extract Demo.whole_image_photometry Demo.region Demo.aperture Demo.w
      Demo.spec1d Demo.sci Demo.err = Ok out /\
    spectral_axis out = spectral_axis Demo.spec1d.
Proof.
  assert (H : exists out,
             extract Demo.whole_image_photometry Demo.region Demo.aperture Demo.w
               Demo.spec1d Demo.sci Demo.err = Ok out)
    by (eexists; vm_compute; reflexivity).
  destruct H as [out H]. exists out. split; [exact H |].
  exact (proj1 (spectral_axis_unchanged _ _ _ _ _ _ _ H)).
Defined.

Lemma zip_truncates_to_shortest_witness :
  exists st,
    extraction_loop Demo.whole_image_photometry Demo.region Demo.aperture Demo.w
      Demo.spec1d Demo.short_sci Demo.short_err = Ok st /\
    length (flux_sum st) = 1%nat /\
    length (err_sum st) = 1%nat.
Proof.
  assert (H : exists st,
             extraction_loop Demo.whole_image_photometry Demo.region Demo.aperture Demo.w
               Demo.spec1d Demo.short_sci Demo.short_err = Ok st)
    by (eexists; vm_compute; reflexivity).
  destruct H as [st H]. exists st. split; [exact H |].
  exact (proj2 (proj2 (proj2 (zip_truncates_to_shortest Demo.whole_image_photometry
                                Demo.region Demo.aperture Demo.w
                                Demo.spec1d Demo.short_sci Demo.short_err))) st H).
Defined.

Lemma unit_preserved_and_stddev_witness :
  exists out,
    extract Demo.whole_image_photometry Demo.region Demo.aperture Demo.w
      Demo.spec1d Demo.sci Demo.err = Ok out /\
    unit (flux out) = Demo.MJy_sr /\
    option_map (@uncertainty_type (list float)) (uncertainty out) = Some std.
Proof.
  assert (H : exists out,
             extract Demo.whole_image_photometry Demo.region Demo.aperture Demo.w
               Demo.spec1d Demo.sci Demo.err = Ok out)
    by (eexists; vm_compute; reflexivity).
  destruct H as [out H]. exists out. split; [exact H |].
  destruct (unit_preserved_and_stddev _ _ _ _ _ _ _ H) as [Hu [st [_ [_ [_ [Hk _]]]]]].
  split; [exact Hu | exact Hk].
Defined.



Lemma pixel_region_to_sky_region_witness :
  pixel_scale Demo.w = sqrt (abs (-0.5) * abs 0.5)%float.
Proof.
  destruct (pixel_region_to_sky_region (U := Demo.Unit) Demo.w Demo.pix_region)
    as [_ [_ [_ [_ [_ H]]]]].
  exact (H float64_abs_mul (-0.5)%float 0.5%float eq_refl).
Defined.

Lemma sky_radius_nonnegative_witness :
  (0 <=? 2)%float = true /\
  (0 <=? value (radius (sky_region (U := Demo.Unit) Demo.w Demo.pix_region)))%float = true.
Proof.
  assert (H : (0 <=? 2)%float = true) by reflexivity.
  split; [exact H |].
  apply (sky_radius_nonnegative (U := Demo.Unit) Demo.w Demo.pix_region H); reflexivity.
Defined.

(** Both scales at 1e200 and a selection of radius zero: the product of
    the scales overflows, the pixel scale is infinite, and the sky radius
    [0 * inf * 3600] is NaN, which is not at or above zero. *)
Lemma sky_radius_nonnegative_counterexample :
  (0 <=? pix_radius Cases.pix_region_point)%float = true /\
  pixel_scale Cases.w_huge = infinity /\
  is_nan (value (radius (sky_region (U := Demo.Unit) Cases.w_huge Cases.pix_region_point))) = true /\
  (0 <=? value (radius (sky_region (U := Demo.Unit) Cases.w_huge Cases.pix_region_point)))%float
    = false.
Proof.
  vm_compute. repeat split.
Qed.

(** On the demo WCS with a negative scale: the pixel scale
    is 0.5 degrees and the selected radius of 2 pixels is 3600 arcseconds. *)
Example float64_sky_region :
  pixel_scale Demo.w = 0.5%float /\
  value (radius Demo.region) = 3600%float /\
  unit (radius Demo.region) = arcsec.
Proof.
  vm_compute. repeat split.
Qed.

(** ** More on results and lookups *)

Lemma mapM_Ok_iff (X Y : Type) (f : X -> result Y) (xs : list X) :
  (exists ys, mapM f xs = Ok ys) <-> Forall (fun x => exists y, f x = Ok y) xs.
Proof.
  induction xs as [| x xs IH]; simpl.
  - split; [constructor | intros _; eexists; reflexivity].
  - split.
    + intros [ys H]. apply bind_Ok_inv in H. destruct H as [y [Hy H]].
      apply bind_Ok_inv in H. destruct H as [ys' [Hys _]].
      constructor; [exists y; exact Hy | apply IH; exists ys'; exact Hys].
    + intros H. inversion H as [| x' xs' [y Hy] Hxs]; subst.
      apply IH in Hxs. destruct Hxs as [ys Hys].
      exists (y :: ys). rewrite Hy. simpl. rewrite Hys. reflexivity.
Qed.

Lemma mapM_first_failure (X Y : Type) (f : X -> result Y) (pre post : list X) (x : X) (e : exn) :
  Forall (fun x' => exists y, f x' = Ok y) pre ->
  f x = Raise e ->
  mapM f (pre ++ x :: post) = Raise e.
Proof.
  intros Hpre Hx. induction Hpre as [| x' pre' [y Hy] _ IH]; simpl.
  - rewrite Hx. reflexivity.
  - rewrite Hy. simpl. rewrite IH. reflexivity.
Qed.

Lemma mapM_Raise_inv (X Y : Type) (f : X -> result Y) (xs : list X) (e : exn) :
  mapM f xs = Raise e -> exists x, In x xs /\ f x = Raise e.
Proof.
  induction xs as [| x xs IH]; simpl; intros H; [discriminate H |].
  destruct (f x) as [y | e'] eqn:Hx; simpl in H.
  - destruct (mapM f xs) as [ys | e'']; simpl in H; [discriminate H |].
    destruct (IH H) as [x' [Hin Hx']]. exists x'. split; [right; exact Hin | exact Hx'].
  - inversion H; subst. exists x. split; [left; reflexivity | exact Hx].
Qed.

Lemma mapM_firstn (X Y : Type) (f : X -> result Y) (xs : list X) (ys : list Y) (k : nat) :
  mapM f xs = Ok ys -> mapM f (firstn k xs) = Ok (firstn k ys).
Proof.
  revert ys k. induction xs as [| x xs IH]; simpl; intros ys k H.
  - inversion H; subst. rewrite !firstn_nil. reflexivity.
  - apply bind_Ok_inv in H. destruct H as [y [Hy H]].
    apply bind_Ok_inv in H. destruct H as [ys' [Hys H]].
    inversion H; subst. destruct k as [| k]; simpl; [reflexivity |].
    rewrite Hy. simpl. rewrite (IH ys' k Hys). reflexivity.
Qed.

Lemma zip3_firstn_planes (A B C : Type) (a : list A) (b : list B) (c : list C) (k : nat) :
  zip3 a (firstn k b) (firstn k c) = firstn k (zip3 a b c).
Proof.
  revert b c k. induction a as [| x a IH]; intros b c k.
  - simpl. rewrite firstn_nil. reflexivity.
  - destruct k as [| k]; [reflexivity |].
    destruct b as [| y b]; [reflexivity |].
    destruct c as [| z c]; [reflexivity |].
    simpl. rewrite IH. reflexivity.
Qed.

Lemma getitem_name_missing (A : Type) (t : list (string * A)) (name : string) :
  Forall (fun p => fst p <> name) t -> getitem_name t name = Raise (KeyError name).
Proof.
  induction 1 as [| [k a] t Hk _ IH]; simpl; [reflexivity |].
  simpl in Hk. apply String.eqb_neq in Hk. rewrite Hk. exact IH.
Qed.

Lemma getitem_name_Raise (A : Type) (t : list (string * A)) (name : string) (e : exn) :
  getitem_name t name = Raise e -> e = KeyError name.
Proof.
  induction t as [| [k a] t IH]; simpl; intros H.
  - inversion H. reflexivity.
  - destruct (String.eqb k name); [discriminate H | exact (IH H)].
Qed.

Lemma getitem_name_In (A : Type) (t : list (string * A)) (name : string) (a : A) :
  getitem_name t name = Ok a -> In (name, a) t.
Proof.
  induction t as [| [k a'] t IH]; simpl; intros H; [discriminate H |].
  destruct (String.eqb k name) eqn:Hk.
  - apply String.eqb_eq in Hk. inversion H; subst. left. reflexivity.
  - right. exact (IH H).
Qed.

Lemma getitem_Raise (A : Type) (l : list A) (i : nat) (e : exn) :
  getitem l i = Raise e -> e = IndexError.
Proof.
  unfold getitem. destruct (nth_error l i); intros H; inversion H; reflexivity.
Qed.

(** ** Edge cases and failures of the extraction *)

Section ExtractionEdges.

Context {F : Type} {numF : Number F}.
Context {U : Type} {unitU : UnitAlgebra U}.
Context {SkyCoord Header WCS : Type} {wcsL : WCSLibrary F SkyCoord Header WCS}.
Context (aperture_photometry : PhotCall (F := F) (U := U) (SkyCoord := SkyCoord) (WCS := WCS)
                               -> result (Table F)).

Variable region : CircleSkyRegion (F := F) (U := U) (SkyCoord := SkyCoord).
Variable aperture : SkyCircularAperture (F := F) (U := U) (SkyCoord := SkyCoord).
Variable w : WCS.
Variable spec1d : Spectrum1D (F := F) (U := U) (list (Image F)).
Variables sci err : list (Image F).

Abbreviation photometry := (slice_photometry aperture_photometry region aperture w).
Abbreviation call_of := (slice_call region aperture w).
Abbreviation axis := (iter_quantity (spectral_axis spec1d)).
Abbreviation loop := (extraction_loop aperture_photometry region aperture w spec1d).
Abbreviation run := (extract aperture_photometry region aperture w spec1d).

Lemma extract_Raise (e : exn) :
  loop sci err = Raise e -> run sci err = Raise e.
Proof.
  intros H. unfold extract. rewrite H. reflexivity.
Qed.

(** X1: a cube with an empty spectral axis raises [IndexError] at
    [spectral_axis[0]], whatever the SCI and ERR stacks hold and whatever
    the photometry would do: no spectrum, not even an empty one. *)
Theorem empty_axis_raises_IndexError :
  value (spectral_axis spec1d) = [] ->
  loop sci err = Raise IndexError /\ run sci err = Raise IndexError.
Proof.
  intros H.
  assert (Hl : loop sci err = Raise IndexError).
  { unfold extraction_loop, iter_quantity. rewrite H. reflexivity. }
  split; [exact Hl | apply extract_Raise; exact Hl].
Qed.

(** X2: with at least one wavelength and an empty SCI or ERR stack the
    loop ends well at once: both lists are left empty and the photometry is
    not called a single time. *)
Theorem empty_stack_makes_no_call :
  value (spectral_axis spec1d) <> [] ->
  sci = [] \/ err = [] ->
  loop sci err = Ok loop_init.
Proof.
  intros Haxis Hempty.
  assert (Hz : zip3 axis sci err = []).
  { destruct Hempty as [H | H]; rewrite H; destruct axis as [| a l];
      try reflexivity. destruct sci; reflexivity. }
  unfold extraction_loop. rewrite Hz.
  unfold iter_quantity. destruct (value (spectral_axis spec1d)); [contradiction |].
  reflexivity.
Qed.

(** X3: the loop ends well exactly when the spectral axis has a first
    entry and the photometry of every visited slice returns a table with a
    first row in both columns. *)
Theorem extraction_loop_succeeds_iff :
  (exists st, loop sci err = Ok st) <->
  exists reference_wavelength,
    nth_error axis 0 = Some reference_wavelength /\
    Forall (fun item => exists fe, photometry reference_wavelength item = Ok fe)
           (zip3 axis sci err).
Proof.
  split.
  - intros [st Hst].
    destruct (extraction_loop_Ok _ _ _ _ _ _ _ Hst) as [ref [ms [Href [Hms _]]]].
    exists ref. split; [apply getitem_Ok; exact Href |].
    apply mapM_Ok_iff. exists ms. exact Hms.
  - intros [ref [Href Hall]]. apply getitem_Ok in Href.
    apply mapM_Ok_iff in Hall. destruct Hall as [ms Hms].
    rewrite extraction_loop_spec, Href. simpl. rewrite Hms. simpl.
    eexists. reflexivity.
Qed.

(** X4: the first slice whose photometry fails decides the outcome: when
    the slices before slice [k] succeed and slice [k] raises [e], the
    extraction raises [e], whatever the later slices would do. *)
Theorem first_failing_slice_raises (k : nat) (e : exn)
    (reference_wavelength : Quantity F U) (item : Quantity F U * Image F * Image F) :
  nth_error axis 0 = Some reference_wavelength ->
  nth_error (zip3 axis sci err) k = Some item ->
  (forall i item', i < k -> nth_error (zip3 axis sci err) i = Some item' ->
     exists fe, photometry reference_wavelength item' = Ok fe) ->
  photometry reference_wavelength item = Raise e ->
  loop sci err = Raise e /\ run sci err = Raise e.
Proof.
  intros Href Hitem Hbefore Hfail.
  assert (Hl : loop sci err = Raise e).
  { rewrite extraction_loop_spec. apply getitem_Ok in Href. rewrite Href. simpl.
    destruct (nth_error_split _ _ Hitem) as [pre [post [Hsplit Hlen]]].
    assert (Hm : mapM (photometry reference_wavelength) (pre ++ item :: post) = Raise e).
    { apply mapM_first_failure; [| exact Hfail].
      apply Forall_forall. intros item' Hin.
      destruct (In_nth_error _ _ Hin) as [i Hi].
      apply (Hbefore i item').
      - rewrite <- Hlen. apply nth_error_Some. congruence.
      - rewrite Hsplit. rewrite nth_error_app1; [exact Hi |].
        apply nth_error_Some. congruence. }
    rewrite <- Hsplit in Hm. rewrite Hm. reflexivity. }
  split; [exact Hl | apply extract_Raise; exact Hl].
Qed.

(** X5: slices do not influence one another: when the extraction over the
    whole stacks ends well, the extraction over their first [k] planes ends
    well too and yields the first [k] entries of the same lists, from the
    first [k] calls. *)
Theorem extraction_of_a_prefix (k : nat) (st : LoopState) :
  loop sci err = Ok st ->
  loop (firstn k sci) (firstn k err) =
    Ok {| flux_sum := firstn k (flux_sum st);
          err_sum := firstn k (err_sum st);
          calls := firstn k (calls st) |}.
Proof.
  intros H. destruct (extraction_loop_Ok _ _ _ _ _ _ _ H) as [ref [ms [Href [Hms [Hf [He Hc]]]]]].
  rewrite extraction_loop_spec, Href. simpl.
  rewrite zip3_firstn_planes, (mapM_firstn _ _ k Hms). simpl.
  rewrite Hf, He, Hc, !firstn_map. reflexivity.
Qed.

End ExtractionEdges.

(** ** The run from the selection to the spectrum *)

Section NotebookEdges.

Context {F : Type} {numF : Number F}.
Context {U : Type} {unitU : UnitAlgebra U}.
Context {SkyCoord Header WCS : Type} {wcsL : WCSLibrary F SkyCoord Header WCS}.
Context {libraries : Libraries (F := F) (U := U) (SkyCoord := SkyCoord)
                               (Header := Header) (WCS := WCS)}.
Context (aperture_photometry : PhotCall (F := F) (U := U) (SkyCoord := SkyCoord) (WCS := WCS)
                               -> result (Table F)).
Context {RawFile : Type}.

(** X7: the exceptions the loop can end with.  Its own statements raise
    [IndexError] (an empty spectral axis, or an empty column of the table)
    and [KeyError] for one of the two columns; any other exception is one
    that a call of [aperture_photometry] raised on a visited slice. *)
Theorem extraction_loop_exceptions (region : CircleSkyRegion) (aperture : SkyCircularAperture)
    (w : WCS) (spec1d : Spectrum1D (list (Image F))) (sci err : list (Image F)) (e : exn) :
  extraction_loop aperture_photometry region aperture w spec1d sci err = Raise e ->
  e = IndexError \/ e = KeyError "aperture_sum" \/ e = KeyError "aperture_sum_err" \/
  exists reference_wavelength item,
    nth_error (iter_quantity (spectral_axis spec1d)) 0 = Some reference_wavelength /\
    In item (zip3 (iter_quantity (spectral_axis spec1d)) sci err) /\
    aperture_photometry (slice_call region aperture w reference_wavelength item) = Raise e.
Proof.
  rewrite extraction_loop_spec.
  destruct (getitem (iter_quantity (spectral_axis spec1d)) 0) as [ref | e'] eqn:Href; simpl.
  - destruct (mapM _ _) as [ms | e'] eqn:Hms; simpl; intros H; [discriminate H |].
    inversion H; subst e'.
    destruct (mapM_Raise_inv _ _ Hms) as [item [Hin Hitem]].
    unfold slice_photometry, first_row in Hitem.
    destruct (aperture_photometry _) as [phot_table | e'] eqn:Hcall; simpl in Hitem.
    + destruct (getitem_name phot_table "aperture_sum") as [col | e'] eqn:Hcol; simpl in Hitem.
      * destruct (getitem col 0) as [f | e'] eqn:Hf; simpl in Hitem.
        -- destruct (getitem_name phot_table "aperture_sum_err") as [col' | e'] eqn:Hcol';
             simpl in Hitem.
           ++ destruct (getitem col' 0) as [f' | e'] eqn:Hf'; simpl in Hitem;
                [discriminate Hitem |].
              inversion Hitem; subst e'. left. exact (getitem_Raise _ _ Hf').
           ++ inversion Hitem; subst e'. right. right. left.
              exact (getitem_name_Raise _ _ Hcol').
        -- inversion Hitem; subst e'. left. exact (getitem_Raise _ _ Hf).
      * inversion Hitem; subst e'. right. left. exact (getitem_name_Raise _ _ Hcol).
    + inversion Hitem; subst e'. right. right. right.
      apply getitem_Ok in Href.
      exists ref, item. split; [exact Href |].
      split; [exact Hin | exact Hcall].
  - intros H. inversion H; subst e'. left. exact (getitem_Raise _ _ Href).
Qed.

(** X6: once the lookups of ["SCI"] and ["ERR"] have succeeded, [hdulist[1]]
    cannot raise: a list holding both names has a second entry. *)
Theorem second_hdu_exists (hdulist : HDUList (F := F) (Header := Header)) (sci_hdu err_hdu : HDU) :
  getitem_name hdulist "SCI" = Ok sci_hdu ->
  getitem_name hdulist "ERR" = Ok err_hdu ->
  exists hdu1, getitem hdulist 1 = Ok hdu1.
Proof.
  intros Hsci Herr. apply getitem_name_In in Hsci. apply getitem_name_In in Herr.
  destruct hdulist as [| p [| q rest]].
  - destruct Hsci.
  - destruct Hsci as [Hsci | []]. destruct Herr as [Herr | []].
    rewrite Hsci in Herr. inversion Herr.
  - exists q. reflexivity.
Qed.

Context (decode_hdulist : RawFile -> option (HDUList (F := F) (Header := Header))).
Context (decode_spectrum : RawFile -> option (Spectrum1D (F := F) (U := U) (list (Image F)))).

Abbreviation run := (notebook aperture_photometry decode_hdulist decode_spectrum).

(** X8: a file that decodes but has no SCI extension ends the run with
    [KeyError "SCI"], and one that has SCI but no ERR extension with
    [KeyError "ERR"], in both cases before the spectrum is read: it does not
    matter whether [Spectrum1D.read] would accept the file. *)
Theorem missing_extension_raises_KeyError (env : Env) (pix_region : CirclePixelRegion)
    (raw : RawFile) (hdulist : HDUList) :
  selected env = Some pix_region ->
  stored env = Some raw ->
  decode_hdulist raw = Some hdulist ->
  (Forall (fun p => fst p <> "SCI"%string) hdulist -> run env = Raise (KeyError "SCI")) /\
  (forall sci_hdu, getitem_name hdulist "SCI" = Ok sci_hdu ->
     Forall (fun p => fst p <> "ERR"%string) hdulist -> run env = Raise (KeyError "ERR")).
Proof.
  intros Hsel Hfile Hh.
  unfold notebook, get_selection_definition, fits_open. rewrite Hsel, Hfile, Hh. simpl.
  split.
  - intros Hno. rewrite (getitem_name_missing Hno). reflexivity.
  - intros sci_hdu Hsci Hno. rewrite Hsci. simpl.
    rewrite (getitem_name_missing Hno). reflexivity.
Qed.

(** X13: from the selection to the spectrum.  When the run ends well, entry
    [i] of the output flux is the first row of [aperture_sum] of the exact
    photometry of plane [i] of the SCI extension, with plane [i] of the ERR
    extension as error, in the aperture centred at the sky position of the
    selected pixel centre and of radius
    [pix_radius * pixel_scale * 3600 arcsec * axis[i] / axis[0]], the WCS
    being that of the second HDU. *)
Theorem notebook_flux_from_selection (env : Env) (out : Spectrum1D (list F)) :
  run env = Ok out ->
  exists pix_region raw hdulist spec1d sci_hdu err_hdu hdu1,
    selected env = Some pix_region /\
    stored env = Some raw /\
    decode_hdulist raw = Some hdulist /\
    decode_spectrum raw = Some spec1d /\
    getitem_name hdulist "SCI" = Ok sci_hdu /\
    getitem_name hdulist "ERR" = Ok err_hdu /\
    nth_error hdulist 1 = Some hdu1 /\
    spectral_axis out = spectral_axis spec1d /\
    forall i f, nth_error (value (flux out)) i = Some f ->
      exists wavelength reference_wavelength sci_slice err_slice phot_table,
        nth_error (iter_quantity (spectral_axis spec1d)) i = Some wavelength /\
        nth_error (iter_quantity (spectral_axis spec1d)) 0 = Some reference_wavelength /\
        nth_error (data sci_hdu) i = Some sci_slice /\
        nth_error (data err_hdu) i = Some err_slice /\
        aperture_photometry
          {| call_data := sci_slice;
             call_aperture :=
               {| positions :=
                    pixel_to_world (celestial (WCS_of_header (header (snd hdu1))))
                      (x (pix_center pix_region)) (y (pix_center pix_region));
                  r := qdiv
                         (qmul
                            (times_unit
                               (fmul (fmul (pix_radius pix_region)
                                           (pixel_scale (WCS_of_header (header (snd hdu1)))))
                                     (of_int 3600))
                               arcsec)
                            wavelength)
                         reference_wavelength |};
             call_wcs := celestial (WCS_of_header (header (snd hdu1)));
             call_method := exact;
             call_error := Some err_slice |} = Ok phot_table /\
        first_row phot_table "aperture_sum" = Ok f.
Proof.
  unfold notebook, get_selection_definition, fits_open, Spectrum1D_read.
  destruct (selected env) as [pix_region |] eqn:Hsel; simpl; [| discriminate].
  destruct (stored env) as [raw |] eqn:Hfile; simpl; [| discriminate].
  destruct (decode_hdulist raw) as [hdulist |] eqn:Hh; simpl; [| discriminate].
  destruct (getitem_name hdulist "SCI") as [sci_hdu | e'] eqn:Hsci; simpl; [| discriminate].
  destruct (getitem_name hdulist "ERR") as [err_hdu | e'] eqn:Herr; simpl; [| discriminate].
  destruct (getitem hdulist 1) as [hdu1 | e'] eqn:Hhdu; simpl; [| discriminate].
  repeat (destruct (call _) as [[] | e']; simpl; [| discriminate]).
  destruct (decode_spectrum raw) as [spec1d |] eqn:Hs; simpl; [| discriminate].
  intros H. apply getitem_Ok in Hhdu.
  exists pix_region, raw, hdulist, spec1d, sci_hdu, err_hdu, hdu1.
  repeat (split; [reflexivity || assumption |]).
  destruct (extract_Ok _ _ _ _ _ _ _ H) as [st [Hst Hout]].
  subst out. simpl. split; [reflexivity |].
  intros i f Hf.
  destruct (extraction_loop_lengths _ _ _ _ _ _ _ Hst) as [Lf [Le _]].
  destruct (nth_error (err_sum st) i) as [e |] eqn:He.
  - destruct (extraction_loop_slice _ _ _ _ _ _ _ i Hst Hf He)
      as [ref [wavelength [sci_slice [err_slice [Href [Ha [Hsl [Hr Hphot]]]]]]]].
    apply getitem_Ok in Href.
    unfold slice_photometry, slice_call in Hphot.
    apply bind_Ok_inv in Hphot. destruct Hphot as [phot_table [Htable Hphot]].
    apply bind_Ok_inv in Hphot. destruct Hphot as [f' [Hf' Hphot]].
    apply bind_Ok_inv in Hphot. destruct Hphot as [e' [_ Hphot]].
    inversion Hphot; subst f' e'.
    exists wavelength, ref, sci_slice, err_slice, phot_table.
    split; [exact Ha |]. split; [exact Href |]. split; [exact Hsl |].
    split; [exact Hr |]. split; [exact Htable | exact Hf'].
  - apply nth_error_None in He.
    assert (i < length (flux_sum st)) by (apply nth_error_Some; congruence). lia.
Qed.

End NotebookEdges.

(** ** What the run reads *)

Section WhatTheRunReads.

Context {F : Type} {numF : Number F}.
Context {U : Type} {unitU : UnitAlgebra U}.
Context {SkyCoord Header WCS : Type} {wcsL : WCSLibrary F SkyCoord Header WCS}.
Context {libraries : Libraries (F := F) (U := U) (SkyCoord := SkyCoord)
                               (Header := Header) (WCS := WCS)}.
Context (aperture_photometry : PhotCall (F := F) (U := U) (SkyCoord := SkyCoord) (WCS := WCS)
                               -> result (Table F)).
Context {RawFile : Type}.

Lemma same_data_by_name (h h' : HDUList (F := F) (Header := Header)) (name : string) :
  Forall2 (fun p p' => fst p = fst p' /\ data (snd p) = data (snd p')) h h' ->
  match getitem_name h name, getitem_name h' name with
  | Ok hdu, Ok hdu' => data hdu = data hdu'
  | Raise e, Raise e' => e = e'
  | _, _ => False
  end.
Proof.
  induction 1 as [| [k hdu] [k' hdu'] h h' [Hk Hd] _ IH]; simpl; [reflexivity |].
  simpl in Hk, Hd. subst k'. destruct (String.eqb k name); [exact Hd | exact IH].
Qed.

Lemma same_second_header (h h' : HDUList (F := F) (Header := Header)) :
  same_but_headers h h' ->
  match getitem h 1, getitem h' 1 with
  | Ok p, Ok p' => header (snd p) = header (snd p')
  | Raise e, Raise e' => e = e'
  | _, _ => False
  end.
Proof.
  intros [_ H]. unfold getitem.
  destruct (nth_error h 1) as [p |]; destruct (nth_error h' 1) as [p' |];
    simpl in H; try discriminate H; [inversion H |]; reflexivity.
Qed.

Lemma extract_reads_axis_and_unit (region : CircleSkyRegion) (aperture : SkyCircularAperture)
    (w : WCS) (spec1d spec1d' : Spectrum1D (list (Image F))) (sci err : list (Image F)) :
  spectral_axis spec1d = spectral_axis spec1d' ->
  unit (flux spec1d) = unit (flux spec1d') ->
  extract aperture_photometry region aperture w spec1d sci err =
  extract aperture_photometry region aperture w spec1d' sci err.
Proof.
  intros Ha Hu. unfold extract, extraction_loop. rewrite Ha, Hu. reflexivity.
Qed.

(** X9: of the file, the run reads the names and the data of the HDUs and
    the header of the second HDU, and of the spectrum that [Spectrum1D.read]
    returns its spectral axis and the unit of its flux, nothing else: two
    readings of the files that agree on these give the same run.  The
    headers of the other HDUs (that of a SCI extension in another place
    too) and the flux values of the spectrum play no part. *)
Theorem notebook_reads_only
    (decode_hdulist decode_hdulist' : RawFile -> option (HDUList (F := F) (Header := Header)))
    (decode_spectrum decode_spectrum' :
       RawFile -> option (Spectrum1D (F := F) (U := U) (list (Image F))))
    (env : Env) :
  (forall raw,
     match decode_hdulist raw, decode_hdulist' raw with
     | Some h, Some h' => same_but_headers h h'
     | None, None => True
     | _, _ => False
     end) ->
  (forall raw,
     match decode_spectrum raw, decode_spectrum' raw with
     | Some s, Some s' =>
         spectral_axis s = spectral_axis s' /\ unit (flux s) = unit (flux s')
     | None, None => True
     | _, _ => False
     end) ->
  notebook aperture_photometry decode_hdulist decode_spectrum env =
  notebook aperture_photometry decode_hdulist' decode_spectrum' env.
Proof.
  intros Hh Hs.
  unfold notebook, get_selection_definition, fits_open, Spectrum1D_read.
  destruct (selected env) as [pix_region |]; simpl; [| reflexivity].
  destruct (stored env) as [raw |]; simpl; [| reflexivity].
  specialize (Hh raw). specialize (Hs raw).
  destruct (decode_hdulist raw) as [h |]; destruct (decode_hdulist' raw) as [h' |];
    try contradiction; simpl; [| reflexivity].
  pose proof (same_data_by_name "SCI" (proj1 Hh)) as Hsci.
  pose proof (same_data_by_name "ERR" (proj1 Hh)) as Herr.
  pose proof (same_second_header Hh) as Hhdu.
  destruct (getitem_name h "SCI") as [sci_hdu | e]; destruct (getitem_name h' "SCI") as [sci_hdu' | e'];
    try contradiction; simpl; [| rewrite Hsci; reflexivity].
  destruct (getitem_name h "ERR") as [err_hdu | e]; destruct (getitem_name h' "ERR") as [err_hdu' | e'];
    try contradiction; simpl; [| rewrite Herr; reflexivity].
  destruct (getitem h 1) as [hdu1 | e]; destruct (getitem h' 1) as [hdu1' | e'];
    try contradiction; simpl; [| rewrite Hhdu; reflexivity].
  rewrite Hsci, Herr, Hhdu.
  repeat (destruct (call _) as [[] | e]; simpl; [| reflexivity]).
  destruct (decode_spectrum raw) as [s |]; destruct (decode_spectrum' raw) as [s' |];
    try contradiction; simpl; [| reflexivity].
  apply extract_reads_axis_and_unit; apply Hs.
Qed.

End WhatTheRunReads.

(** ** The radius of the cone *)

Section ConeRadius.

Context {F : Type} {numF : Number F}.
Context {U : Type} {unitU : UnitAlgebra U}.
Context {SkyCoord Header WCS : Type} {wcsL : WCSLibrary F SkyCoord Header WCS}.
Context (aperture_photometry : PhotCall (F := F) (U := U) (SkyCoord := SkyCoord) (WCS := WCS)
                               -> result (Table F)).

Variable region : CircleSkyRegion (F := F) (U := U) (SkyCoord := SkyCoord).
Variable aperture : SkyCircularAperture (F := F) (U := U) (SkyCoord := SkyCoord).
Variable w : WCS.
Variable spec1d : Spectrum1D (F := F) (U := U) (list (Image F)).
Variables sci err : list (Image F).

(** The radius in call [i], value and unit. *)
Lemma cone_radius (st : LoopState) (i : nat) (call : PhotCall) :
  extraction_loop aperture_photometry region aperture w spec1d sci err = Ok st ->
  nth_error (calls st) i = Some call ->
  exists v v0,
    nth_error (value (spectral_axis spec1d)) i = Some v /\
    nth_error (value (spectral_axis spec1d)) 0 = Some v0 /\
    value (r (call_aperture call)) = fdiv (fmul (value (r aperture)) v) v0 /\
    unit (r (call_aperture call)) =
      udiv (umul (unit (r aperture)) (unit (spectral_axis spec1d)))
           (unit (spectral_axis spec1d)).
Proof.
  intros H Hcall.
  destruct (extraction_loop_Ok _ _ _ _ _ _ _ H) as [ref [ms [Href [_ [_ [_ Hc]]]]]].
  apply getitem_Ok in Href. rewrite Hc, nth_error_map in Hcall.
  destruct (nth_error (zip3 _ sci err) i) as [[[wavelength sci_slice] err_slice] |] eqn:Hitem;
    simpl in Hcall; [| discriminate Hcall].
  inversion Hcall; subst call.
  apply zip3_nth_error in Hitem. destruct Hitem as [Ha _].
  rewrite nth_error_iter_quantity in Ha, Href.
  destruct (nth_error (value (spectral_axis spec1d)) i) as [v |] eqn:Hv; [| discriminate Ha].
  destruct (nth_error (value (spectral_axis spec1d)) 0) as [v0 |] eqn:Hv0; [| discriminate Href].
  simpl in Ha, Href. inversion Ha; subst wavelength. inversion Href; subst ref.
  exists v, v0. split; [reflexivity |]. split; [reflexivity |]. split; reflexivity.
Qed.

(** X11: in a unit algebra where [(a * b) / b = a], as in astropy, the
    radius of every cone has the unit of the selected aperture's radius:
    the wavelength's unit cancels. *)
Theorem cone_radius_keeps_its_unit (st : LoopState) (i : nat) (call : PhotCall) :
  (forall a b : U, udiv (umul a b) b = a) ->
  extraction_loop aperture_photometry region aperture w spec1d sci err = Ok st ->
  nth_error (calls st) i = Some call ->
  unit (r (call_aperture call)) = unit (r aperture).
Proof.
  intros Hlaw H Hcall.
  destruct (cone_radius i H Hcall) as [v [v0 [_ [_ [_ Hu]]]]].
  rewrite Hu. apply Hlaw.
Qed.

End ConeRadius.

(** ** The pixel scale in binary64 *)

Lemma float64_abs_fold (xs : list float) (a : float) :
  fabs (fold_left fmul xs a) = fold_left fmul (map fabs xs) (fabs a).
Proof.
  revert a. induction xs as [| v xs IH]; intros a; simpl; [reflexivity |].
  change (abs (fold_left mul xs (a * v)%float))
    with (fabs (fold_left fmul xs (fmul a v))).
  rewrite IH, float64_abs_mul. reflexivity.
Qed.

Lemma float64_abs_np_prod (xs : list float) : fabs (np_prod xs) = np_prod (map fabs xs).
Proof.
  destruct xs as [| v xs]; [vm_compute; reflexivity |].
  unfold np_prod. cbn [map]. apply float64_abs_fold.
Qed.

Section Binary64Scale.

Context {U : Type} {unitU : UnitAlgebra U}.
Context {SkyCoord Header WCS : Type} {wcsL : WCSLibrary float SkyCoord Header WCS}.

(** X10: in binary64 the absolute value of the product of the scales is,
    bit for bit, the product of their absolute values; so the pixel scale
    and the sky radius depend on the scales through their absolute values
    only: flipping the sign of any axis changes neither. *)
Theorem float64_pixel_scale_ignores_signs (w w' : WCS) :
  map fabs (cdelt (celestial w)) = map fabs (cdelt (celestial w')) ->
  pixel_scale w = fsqrt (np_prod (map fabs (cdelt (celestial w)))) /\
  pixel_scale w = pixel_scale w' /\
  forall pix_region : CirclePixelRegion (F := float),
    radius (sky_region (U := U) w pix_region) = radius (sky_region (U := U) w' pix_region).
Proof.
  intros H.
  assert (Hs : forall w0 : WCS,
             pixel_scale w0 = fsqrt (np_prod (map fabs (cdelt (celestial w0))))).
  { intros w0. unfold pixel_scale. rewrite float64_abs_np_prod. reflexivity. }
  assert (He : pixel_scale w = pixel_scale w') by (rewrite !Hs, H; reflexivity).
  split; [apply Hs |]. split; [exact He |].
  intros pix_region. unfold sky_region. cbn [radius]. rewrite He. reflexivity.
Qed.

End Binary64Scale.

(** ** The further theorems at work *)

Lemma empty_axis_raises_IndexError_witness :
  value (spectral_axis Cases.spec1d_no_axis) = [] /\
  extract Demo.whole_image_photometry Demo.region Demo.aperture Demo.w
    Cases.spec1d_no_axis Demo.sci Demo.err = Raise IndexError.
Proof.
  assert (H : value (spectral_axis Cases.spec1d_no_axis) = []) by reflexivity.
  split; [exact H |].
  exact (proj2 (empty_axis_raises_IndexError Demo.whole_image_photometry
                  Demo.region Demo.aperture Demo.w Cases.spec1d_no_axis Demo.sci Demo.err H)).
Defined.

Lemma empty_stack_makes_no_call_witness :
  extraction_loop Demo.whole_image_photometry Demo.region Demo.aperture Demo.w
    Demo.spec1d [] Demo.err = Ok loop_init /\
  extraction_loop Demo.whole_image_photometry Demo.region Demo.aperture Demo.w
    Demo.spec1d Demo.sci [] = Ok loop_init.
Proof.
  split.
  - apply (empty_stack_makes_no_call Demo.whole_image_photometry
             Demo.region Demo.aperture Demo.w Demo.spec1d (sci := []) (err := Demo.err)).
    + discriminate.
    + left. reflexivity.
  - apply (empty_stack_makes_no_call Demo.whole_image_photometry
             Demo.region Demo.aperture Demo.w Demo.spec1d (sci := Demo.sci) (err := [])).
    + discriminate.
    + right. reflexivity.
Defined.

(** Both directions on the demo cube: every slice has its photometry, so
    the loop ends well; and with the photometry that rejects the second
    slice the loop does not end well, so some visited slice has none. *)
Lemma extraction_loop_succeeds_iff_witness :
  (exists st,
     extraction_loop Demo.whole_image_photometry Demo.region Demo.aperture Demo.w
       Demo.spec1d Demo.sci Demo.err = Ok st) /\
  ~ (exists reference_wavelength,
       nth_error (iter_quantity (spectral_axis Demo.spec1d)) 0 = Some reference_wavelength /\
       Forall (fun item =>
                 exists fe, slice_photometry Cases.picky_photometry Demo.region Demo.aperture
                              Demo.w reference_wavelength item = Ok fe)
              (zip3 (iter_quantity (spectral_axis Demo.spec1d)) Demo.sci Demo.err)).
Proof.
  split.
  - apply (proj2 (extraction_loop_succeeds_iff Demo.whole_image_photometry
                    Demo.region Demo.aperture Demo.w Demo.spec1d Demo.sci Demo.err)).
    exists {| value := 1%float; unit := Demo.um |}. split; [reflexivity |].
    repeat constructor; eexists; vm_compute; reflexivity.
  - intros H.
    apply (proj2 (extraction_loop_succeeds_iff Cases.picky_photometry
                    Demo.region Demo.aperture Demo.w Demo.spec1d Demo.sci Demo.err)) in H.
    destruct H as [st H]. vm_compute in H. discriminate H.
Defined.

Lemma first_failing_slice_raises_witness :
  extract Cases.picky_photometry Demo.region Demo.aperture Demo.w
    Demo.spec1d Demo.sci Demo.err = Raise (LibraryError "rejected").
Proof.
  apply first_failing_slice_raises
    with (k := 1%nat)
         (reference_wavelength := {| value := 1%float; unit := Demo.um |})
         (item := ({| value := 1.5%float; unit := Demo.um |},
                   Demo.plane 2%float, Demo.plane 0.5%float)).
  - reflexivity.
  - reflexivity.
  - intros i item' Hi Hitem. destruct i as [| i]; [| lia].
    vm_compute in Hitem. inversion Hitem; subst item'.
    eexists. vm_compute. reflexivity.
  - vm_compute. reflexivity.
Defined.

Lemma extraction_of_a_prefix_witness :
  exists st,
    extraction_loop Demo.whole_image_photometry Demo.region Demo.aperture Demo.w
      Demo.spec1d Demo.sci Demo.err = Ok st /\
    extraction_loop Demo.whole_image_photometry Demo.region Demo.aperture Demo.w
      Demo.spec1d (firstn 2 Demo.sci) (firstn 2 Demo.err) =
    Ok {| flux_sum := firstn 2 (flux_sum st);
          err_sum := firstn 2 (err_sum st);
          calls := firstn 2 (calls st) |}.
Proof.
  assert (H : exists st,
             extraction_loop Demo.whole_image_photometry Demo.region Demo.aperture Demo.w
               Demo.spec1d Demo.sci Demo.err = Ok st)
    by (eexists; vm_compute; reflexivity).
  destruct H as [st H]. exists st. split; [exact H |].
  exact (extraction_of_a_prefix _ _ _ _ _ _ _ 2 H).
Defined.

Lemma second_hdu_exists_witness :
  exists hdu1, getitem Demo.hdulist 1 = Ok hdu1.
Proof.
  apply (second_hdu_exists Demo.hdulist
           (sci_hdu := {| header := Demo.w; data := Demo.sci |})
           (err_hdu := {| header := Demo.w; data := Demo.err |})); reflexivity.
Defined.

Lemma extraction_loop_exceptions_witness :
  exists item,
    In item (zip3 (iter_quantity (spectral_axis Demo.spec1d)) Demo.sci Demo.err) /\
    Cases.picky_photometry
      (slice_call Demo.region Demo.aperture Demo.w
         {| value := 1%float; unit := Demo.um |} item) = Raise (LibraryError "rejected").
Proof.
  assert (H : extraction_loop Cases.picky_photometry Demo.region Demo.aperture Demo.w
                Demo.spec1d Demo.sci Demo.err = Raise (LibraryError "rejected"))
    by (vm_compute; reflexivity).
  destruct (extraction_loop_exceptions _ _ _ _ _ _ _ H)
    as [H' | [H' | [H' | [ref [item [Href [Hin Hcall]]]]]]]; try discriminate H'.
  vm_compute in Href. inversion Href; subst ref.
  exists item. split; [exact Hin | exact Hcall].
Defined.

Lemma missing_extension_raises_KeyError_witness :
  notebook Demo.whole_image_photometry Cases.decode_no_sci Demo.decode_spectrum
    Demo.env = Raise (KeyError "SCI") /\
  notebook Demo.whole_image_photometry Cases.decode_no_err Demo.decode_spectrum
    Demo.env = Raise (KeyError "ERR").
Proof.
  split.
  - apply (missing_extension_raises_KeyError Demo.whole_image_photometry
             Cases.decode_no_sci Demo.decode_spectrum Demo.env
             (pix_region := Demo.pix_region) (raw := 1%nat) (hdulist := Cases.hdulist_no_sci));
      try reflexivity.
    repeat constructor; discriminate.
  - apply (missing_extension_raises_KeyError Demo.whole_image_photometry
             Cases.decode_no_err Demo.decode_spectrum Demo.env
             (pix_region := Demo.pix_region) (raw := 1%nat) (hdulist := Cases.hdulist_no_err))
      with (sci_hdu := {| header := Demo.w; data := Demo.sci |});
      try reflexivity.
    repeat constructor; discriminate.
Defined.

Lemma notebook_reads_only_witness :
  notebook Demo.whole_image_photometry Demo.decode_hdulist Demo.decode_spectrum Demo.env =
  notebook Demo.whole_image_photometry Cases.decode_other_headers Demo.decode_spectrum Demo.env.
Proof.
  apply notebook_reads_only.
  - intros [| [| [| raw]]]; simpl; try exact I;
      (split; [repeat constructor | reflexivity]).
  - intros [| [| [| raw]]]; simpl; try exact I; split; reflexivity.
Defined.

Lemma float64_pixel_scale_ignores_signs_witness :
  pixel_scale Demo.w = pixel_scale Cases.w_flipped.
Proof.
  apply (float64_pixel_scale_ignores_signs (U := Demo.Unit) Demo.w Cases.w_flipped).
  reflexivity.
Defined.

Lemma cone_radius_keeps_its_unit_witness :
  exists st call,
    extraction_loop Demo.whole_image_photometry Demo.region Demo.aperture Demo.w
      Demo.spec1d Demo.sci Demo.err = Ok st /\
    nth_error (calls st) 2 = Some call /\
    unit (r (call_aperture call)) = arcsec.
Proof.
  assert (H : exists st call,
             extraction_loop Demo.whole_image_photometry Demo.region Demo.aperture Demo.w
               Demo.spec1d Demo.sci Demo.err = Ok st /\
             nth_error (calls st) 2 = Some call)
    by (eexists; eexists; split; vm_compute; reflexivity).
  destruct H as [st [call [H Hcall]]]. exists st, call.
  split; [exact H |]. split; [exact Hcall |].
  apply (cone_radius_keeps_its_unit _ _ _ _ _ _ _ 2 (call := call)) in H.
  - exact H.
  - intros [[a1 a2] a3] [[b1 b2] b3]. simpl. repeat f_equal; lia.
  - exact Hcall.
Defined.

Lemma notebook_flux_from_selection_witness :
  exists out,
    notebook Demo.whole_image_photometry Demo.decode_hdulist Demo.decode_spectrum
      Demo.env = Ok out /\
    spectral_axis out = spectral_axis Demo.spec1d.
Proof.
  assert (H : exists out,
             notebook Demo.whole_image_photometry Demo.decode_hdulist Demo.decode_spectrum
               Demo.env = Ok out)
    by (eexists; vm_compute; reflexivity).
  destruct H as [out H]. exists out. split; [exact H |].
  destruct (notebook_flux_from_selection _ _ _ _ H)
    as [pix [raw [h [s [sci_hdu [err_hdu [hdu1 [_ [Hfile [_ [Hs [_ [_ [_ [Haxis _]]]]]]]]]]]]]]].
  simpl in Hfile. inversion Hfile; subst raw. simpl in Hs. inversion Hs; subst s.
  exact Haxis.
Defined.
